(** * vscode-astronomy: the FITS custom editor ([src/fitsView.ts]) and the
    script of its panel

    A shallow embedding of the editable document [FitsFile], the webview
    registry [WebviewCollection], the provider [FitsProvider] with its
    message bridge, and the byte/text transport between provider and
    panel.

    - JavaScript strings are sequences of UTF-16 code units ([list N]).
    - A [Uint8Array] is a [list byte].
    - JavaScript arrays are objects: the fields [_edits] and [_savedEdits]
      hold references into a heap of arrays, so that the aliasing created
      by [revert] is visible.
    - [async] functions are programs of a resumption monad [Prog]: they run
      on the store until they [await] a request and are resumed with the
      answer; everything between two awaits is one atomic turn of the
      single host thread.

    Left out: the HTML of the panel ([getHtmlForWebview]), the
    registration of the provider and [dispose]. *)

From Stdlib Require Import NArith ZArith List Ascii String Lia.
From Stdlib.Strings Require Import Byte.
From stdpp Require Import base option list gmap strings.

(** ** Text transport of the file content *)

Module Utf8.

Local Open Scope N_scope.

(** A JavaScript string: UTF-16 code units. *)
Definition JsString := list N.

Definition byte_of_N (n : N) : byte :=
  match Byte.of_N n with Some b => b | None => x00 end.

Definition REPLACEMENT : N := 0xFFFD.

(** One decoded code point as UTF-16: a surrogate pair above the BMP. *)
Definition utf16_of_code_point (cp : N) : JsString :=
  if cp <? 0x10000 then [cp]
  else [0xD800 + N.shiftr (cp - 0x10000) 10;
        0xDC00 + N.land (cp - 0x10000) 0x3FF].

(** The state of the UTF-8 decoder between two bytes of a sequence:
    the code point so far, the continuation bytes still expected and the
    range the next continuation byte has to lie in. *)
Record Pending := {
  code_point : N;
  bytes_needed : nat;
  lower_boundary : N;
  upper_boundary : N
}.

(** A byte met while no sequence is open. [inl] are the code units to
    emit, [inr] the sequence the byte opens. *)
Definition decode_lead (b : N) : JsString + Pending :=
  if b <=? 0x7F then inl [b]
  else if (0xC2 <=? b) && (b <=? 0xDF) then
    inr {| code_point := N.land b 0x1F; bytes_needed := 1;
           lower_boundary := 0x80; upper_boundary := 0xBF |}
  else if (0xE0 <=? b) && (b <=? 0xEF) then
    inr {| code_point := N.land b 0xF; bytes_needed := 2;
           lower_boundary := (if b =? 0xE0 then 0xA0 else 0x80);
           upper_boundary := (if b =? 0xED then 0x9F else 0xBF) |}
  else if (0xF0 <=? b) && (b <=? 0xF4) then
    inr {| code_point := N.land b 0x7; bytes_needed := 3;
           lower_boundary := (if b =? 0xF0 then 0x90 else 0x80);
           upper_boundary := (if b =? 0xF4 then 0x8F else 0xBF) |}
  else inl [REPLACEMENT].

(** [buf.toString()] of Node, whose default encoding is 'utf8': the UTF-8
    decoder of the Encoding Standard without byte-order-mark removal. A
    malformed sequence yields U+FFFD and the offending byte is read again
    as the start of a new sequence. *)
Fixpoint utf8_decode (st : option Pending) (bs : list byte) : JsString :=
  match bs with
  | [] => match st with None => [] | Some _ => [REPLACEMENT] end
  | b0 :: rest =>
    let b := Byte.to_N b0 in
    match st with
    | None =>
      match decode_lead b with
      | inl out => out ++ utf8_decode None rest
      | inr p => utf8_decode (Some p) rest
      end
    | Some p =>
      if (lower_boundary p <=? b) && (b <=? upper_boundary p) then
        let cp := N.lor (N.shiftl (code_point p) 6) (N.land b 0x3F) in
        match bytes_needed p with
        | S (S n) =>
          utf8_decode (Some {| code_point := cp; bytes_needed := S n;
                               lower_boundary := 0x80;
                               upper_boundary := 0xBF |}) rest
        | _ => utf16_of_code_point cp ++ utf8_decode None rest
        end
      else
        REPLACEMENT ::
        match decode_lead b with
        | inl out => out ++ utf8_decode None rest
        | inr p' => utf8_decode (Some p') rest
        end
    end
  end.

Definition Buffer_toString (buf : list byte) : JsString := utf8_decode None buf.

Definition is_high_surrogate (c : N) : bool := (0xD800 <=? c) && (c <=? 0xDBFF).
Definition is_low_surrogate (c : N) : bool := (0xDC00 <=? c) && (c <=? 0xDFFF).

Definition utf8_of_code_point (cp : N) : list byte :=
  if cp <? 0x80 then [byte_of_N cp]
  else if cp <? 0x800 then
    [byte_of_N (N.lor 0xC0 (N.shiftr cp 6));
     byte_of_N (N.lor 0x80 (N.land cp 0x3F))]
  else if cp <? 0x10000 then
    [byte_of_N (N.lor 0xE0 (N.shiftr cp 12));
     byte_of_N (N.lor 0x80 (N.land (N.shiftr cp 6) 0x3F));
     byte_of_N (N.lor 0x80 (N.land cp 0x3F))]
  else
    [byte_of_N (N.lor 0xF0 (N.shiftr cp 18));
     byte_of_N (N.lor 0x80 (N.land (N.shiftr cp 12) 0x3F));
     byte_of_N (N.lor 0x80 (N.land (N.shiftr cp 6) 0x3F));
     byte_of_N (N.lor 0x80 (N.land cp 0x3F))].

(** [Buffer.from(string)] of Node, default encoding 'utf8': surrogate
    pairs are joined, a lone surrogate is written as U+FFFD. *)
Fixpoint Buffer_from (data : JsString) : list byte :=
  match data with
  | [] => []
  | c :: rest =>
    if is_high_surrogate c then
      match rest with
      | lo :: rest' =>
        if is_low_surrogate lo then
          utf8_of_code_point (0x10000 + N.shiftl (c - 0xD800) 10 + (lo - 0xDC00))
          ++ Buffer_from rest'
        else utf8_of_code_point REPLACEMENT ++ Buffer_from rest
      | [] => utf8_of_code_point REPLACEMENT
      end
    else if is_low_surrogate c then
      utf8_of_code_point REPLACEMENT ++ Buffer_from rest
    else utf8_of_code_point c ++ Buffer_from rest
  end.

(** [resolveCustomEditor], the 'ready' handler, for a document that is not
    untitled: [let blob = Buffer.from(document.documentData.buffer).toString()].
    [documentData] always comes from [new Uint8Array(...)] of a read, so
    its [buffer] holds exactly its bytes. *)
Definition blob (documentData : list byte) : JsString :=
  Buffer_toString documentData.

(** The panel script, [loadFits(data)]: the [u8a] it wraps into the Blob
    given to [JS9.Load]: [new Uint8Array(Buffer.from(data))]. *)
Definition loadFits (data : JsString) : list byte := Buffer_from data.

End Utf8.

(** ** Values shared by host and panel *)

(** [interface PawDrawEdit]. The code never computes with the stroke
    coordinates; they are kept as integers. *)
Record PawDrawEdit := {
  color : string;
  stroke : list (Z * Z)
}.

(** Errors a promise can be rejected with. *)
Inductive Error :=
| FileSystemError (code : string)   (* raised by [vscode.workspace.fs] *)
| UriError (message : string)       (* raised by [vscode.Uri.parse] *)
| JsError (message : string).       (* [new Error(message)] *)

(** [vscode.Uri], as far as the code uses it. *)
Class VscodeUri := {
  Uri : Type;
  Uri_scheme : Uri -> string;
  Uri_toString : Uri -> string;
  Uri_parse : string -> Error + Uri
}.

(** Handles of objects owned by the host. *)
Abbreviation WebviewPanel := nat (only parsing).
Abbreviation CancellationToken := nat (only parsing).
(** A reference to a JavaScript array of edits. *)
Abbreviation ArrayRef := nat (only parsing).
(** A promise created by [new Promise]; its [resolve] function is
    identified with it. *)
Abbreviation PromiseRef := nat (only parsing).

(** A message the panel sends to the host ([message: any]): the fields
    the handlers read. [as_PawDrawEdit] is the message object under the
    cast [message as PawDrawEdit]. *)
Record Message := {
  type : string;
  requestId : option N;
  body : list Z;
  as_PawDrawEdit : PawDrawEdit
}.

(** Bodies of the messages the host posts to a panel. *)
Inductive Body :=
| BodyEmpty                                   (* [{}] *)
| BodyUntitled (untitled editable : bool)     (* [{untitled, editable}] *)
| BodyValue (value : Utf8.JsString).          (* [{value}] *)

Record Posted := {
  posted_to : WebviewPanel;
  posted_type : string;
  posted_requestId : option N;
  posted_body : Body
}.

(** An event fired on [_onDidChangeDocument]: [{content?, edits}]. The
    edits are handed out by reference. *)
Record DocumentChange := {
  content : option (list byte);
  edits : ArrayRef
}.

(** An entry of [WebviewCollection._webviews]. *)
Record WebviewEntry := {
  resource : string;
  webviewPanel : WebviewPanel
}.

(** ** The store

    The mutable fields of one [FitsFile], of the [FitsProvider] and of
    its [WebviewCollection], together with the heap of arrays, the
    promises, the cancellation tokens and what has been sent out. *)
Record Store := {
  arrays : list (list PawDrawEdit);
  (* FitsFile *)
  _documentData : list byte;
  _edits : ArrayRef;
  _savedEdits : ArrayRef;
  changed : list DocumentChange;        (* fired on [_onDidChangeDocument] *)
  (* WebviewCollection: a [Set] of fresh entry objects, in insertion order *)
  _webviews : list WebviewEntry;
  (* FitsProvider *)
  _requestId : N;
  _callbacks : gmap N PromiseRef;
  (* runtime and host *)
  promises : list (option (list Z));    (* [None]: pending *)
  cancellationRequested : list CancellationToken;
  posted : list Posted                  (* [panel.webview.postMessage] *)
}.

Definition set_arrays (f : list (list PawDrawEdit) -> list (list PawDrawEdit)) (s : Store) : Store :=
  {| arrays := f (arrays s); _documentData := _documentData s; _edits := _edits s;
     _savedEdits := _savedEdits s; changed := changed s; _webviews := _webviews s;
     _requestId := _requestId s; _callbacks := _callbacks s; promises := promises s;
     cancellationRequested := cancellationRequested s; posted := posted s |}.

Definition set_documentData (d : list byte) (s : Store) : Store :=
  {| arrays := arrays s; _documentData := d; _edits := _edits s;
     _savedEdits := _savedEdits s; changed := changed s; _webviews := _webviews s;
     _requestId := _requestId s; _callbacks := _callbacks s; promises := promises s;
     cancellationRequested := cancellationRequested s; posted := posted s |}.

Definition set_edits (r : ArrayRef) (s : Store) : Store :=
  {| arrays := arrays s; _documentData := _documentData s; _edits := r;
     _savedEdits := _savedEdits s; changed := changed s; _webviews := _webviews s;
     _requestId := _requestId s; _callbacks := _callbacks s; promises := promises s;
     cancellationRequested := cancellationRequested s; posted := posted s |}.

Definition set_savedEdits (r : ArrayRef) (s : Store) : Store :=
  {| arrays := arrays s; _documentData := _documentData s; _edits := _edits s;
     _savedEdits := r; changed := changed s; _webviews := _webviews s;
     _requestId := _requestId s; _callbacks := _callbacks s; promises := promises s;
     cancellationRequested := cancellationRequested s; posted := posted s |}.

Definition set_changed (f : list DocumentChange -> list DocumentChange) (s : Store) : Store :=
  {| arrays := arrays s; _documentData := _documentData s; _edits := _edits s;
     _savedEdits := _savedEdits s; changed := f (changed s); _webviews := _webviews s;
     _requestId := _requestId s; _callbacks := _callbacks s; promises := promises s;
     cancellationRequested := cancellationRequested s; posted := posted s |}.

Definition set_webviews (f : list WebviewEntry -> list WebviewEntry) (s : Store) : Store :=
  {| arrays := arrays s; _documentData := _documentData s; _edits := _edits s;
     _savedEdits := _savedEdits s; changed := changed s; _webviews := f (_webviews s);
     _requestId := _requestId s; _callbacks := _callbacks s; promises := promises s;
     cancellationRequested := cancellationRequested s; posted := posted s |}.

Definition set_requestId (n : N) (s : Store) : Store :=
  {| arrays := arrays s; _documentData := _documentData s; _edits := _edits s;
     _savedEdits := _savedEdits s; changed := changed s; _webviews := _webviews s;
     _requestId := n; _callbacks := _callbacks s; promises := promises s;
     cancellationRequested := cancellationRequested s; posted := posted s |}.

Definition set_callbacks (f : gmap N PromiseRef -> gmap N PromiseRef) (s : Store) : Store :=
  {| arrays := arrays s; _documentData := _documentData s; _edits := _edits s;
     _savedEdits := _savedEdits s; changed := changed s; _webviews := _webviews s;
     _requestId := _requestId s; _callbacks := f (_callbacks s); promises := promises s;
     cancellationRequested := cancellationRequested s; posted := posted s |}.

Definition set_promises (f : list (option (list Z)) -> list (option (list Z))) (s : Store) : Store :=
  {| arrays := arrays s; _documentData := _documentData s; _edits := _edits s;
     _savedEdits := _savedEdits s; changed := changed s; _webviews := _webviews s;
     _requestId := _requestId s; _callbacks := _callbacks s; promises := f (promises s);
     cancellationRequested := cancellationRequested s; posted := posted s |}.

Definition set_cancellationRequested (f : list CancellationToken -> list CancellationToken) (s : Store) : Store :=
  {| arrays := arrays s; _documentData := _documentData s; _edits := _edits s;
     _savedEdits := _savedEdits s; changed := changed s; _webviews := _webviews s;
     _requestId := _requestId s; _callbacks := _callbacks s; promises := promises s;
     cancellationRequested := f (cancellationRequested s); posted := posted s |}.

Definition set_posted (f : list Posted -> list Posted) (s : Store) : Store :=
  {| arrays := arrays s; _documentData := _documentData s; _edits := _edits s;
     _savedEdits := _savedEdits s; changed := changed s; _webviews := _webviews s;
     _requestId := _requestId s; _callbacks := _callbacks s; promises := promises s;
     cancellationRequested := cancellationRequested s; posted := f (posted s) |}.

(** The contents of the two edit arrays of the document. *)
Definition edits_value (s : Store) : list PawDrawEdit := arrays s !!! _edits s.
Definition savedEdits_value (s : Store) : list PawDrawEdit := arrays s !!! _savedEdits s.

(** The event fired on [_onDidChange]: a label and the two reversible
    actions. The actions are [async] closures without an [await]; a call
    runs their body at once on the store. *)
Record DidChange := {
  label : string;
  undo : Store -> Store;
  redo : Store -> Store
}.

Section Editor.
Context `{VscodeUri}.

(** ** Asynchronous programs *)

(** What an [async] function can wait for: the file system of the host,
    or a promise of the message bridge. *)
Inductive Request :=
| ReadFile (uri : Uri)                          (* [vscode.workspace.fs.readFile] *)
| WriteFile (uri : Uri) (content : list byte)   (* [vscode.workspace.fs.writeFile] *)
| Delete (uri : Uri)                            (* [vscode.workspace.fs.delete] *)
| Settled (p : PromiseRef).                     (* [await p] *)

Definition Answer (r : Request) : Type :=
  match r with
  | ReadFile _ => (Error + list byte)%type
  | WriteFile _ _ => (Error + unit)%type
  | Delete _ => (Error + unit)%type
  | Settled _ => list Z
  end.

Inductive Prog (A : Type) : Type :=
| Ret (a : A)
| Throw (e : Error)
| Get (k : Store -> Prog A)
| Put (s : Store) (k : Prog A)
| Fire (ev : DidChange) (k : Prog A)            (* [_onDidChange.fire(ev)] *)
| Await (r : Request) (k : Answer r -> Prog A).

Arguments Ret {A} a.
Arguments Throw {A} e.
Arguments Get {A} k.
Arguments Put {A} s k.
Arguments Fire {A} ev k.
Arguments Await {A} r k.

Fixpoint bind {A B} (m : Prog A) (f : A -> Prog B) : Prog B :=
  match m with
  | Ret a => f a
  | Throw e => Throw e
  | Get k => Get (fun s => bind (k s) f)
  | Put s k => Put s (bind k f)
  | Fire ev k => Fire ev (bind k f)
  | Await r k => Await r (fun a => bind (k a) f)
  end.

(** [try { m } catch { h }] *)
Fixpoint try_catch {A} (m : Prog A) (h : Error -> Prog A) : Prog A :=
  match m with
  | Ret a => Ret a
  | Throw e => h e
  | Get k => Get (fun s => try_catch (k s) h)
  | Put s k => Put s (try_catch k h)
  | Fire ev k => Fire ev (try_catch k h)
  | Await r k => Await r (fun a => try_catch (k a) h)
  end.

#[export] Instance Prog_ret : MRet Prog := @Ret.
#[export] Instance Prog_bind : MBind Prog := fun A B f m => bind m f.

Definition gets {A} (f : Store -> A) : Prog A := Get (fun s => Ret (f s)).
Definition modify (f : Store -> Store) : Prog unit := Get (fun s => Put (f s) (Ret tt)).

(** [await] of a host call that rejects with the error or fulfils with
    the value. *)
Definition await_result {A} (r : Request) (cast : Answer r -> Error + A) : Prog A :=
  Await r (fun a => match cast a with inl e => Throw e | inr v => Ret v end).

(** How a turn ends: the function returned, threw, or is suspended at an
    [await]. *)
Inductive Outcome (A : Type) : Type :=
| Returned (a : A)
| Thrown (e : Error)
| Suspended (r : Request) (k : Answer r -> Prog A).

Arguments Returned {A} a.
Arguments Thrown {A} e.
Arguments Suspended {A} r k.

Record Turn (A : Type) := {
  store : Store;
  fired : list DidChange;
  outcome : Outcome A
}.

Arguments store {A} t.
Arguments fired {A} t.
Arguments outcome {A} t.

(** Run a program up to its next [await]. *)
Fixpoint run_from {A} (p : Prog A) (s : Store) (evs : list DidChange) : Turn A :=
  match p with
  | Ret a => {| store := s; fired := evs; outcome := Returned a |}
  | Throw e => {| store := s; fired := evs; outcome := Thrown e |}
  | Get k => run_from (k s) s evs
  | Put s' k => run_from k s' evs
  | Fire ev k => run_from k s (evs ++ [ev])
  | Await r k => {| store := s; fired := evs; outcome := Suspended r k |}
  end.

Definition run {A} (p : Prog A) (s : Store) : Turn A := run_from p s [].

(** The store after a call of a closure whose body has no [await]. *)
Definition exec (p : Prog unit) (s : Store) : Store := store (run p s).

(** ** JavaScript primitives *)

(** [array.push(x)] and [array.pop()] on the array behind a reference;
    [pop] leaves an empty array as it is. *)
Definition array_push (r : ArrayRef) (x : PawDrawEdit) : Prog unit :=
  modify (set_arrays (alter (fun a => a ++ [x]) r)).

Definition array_pop (r : ArrayRef) : Prog unit :=
  modify (set_arrays (alter (@removelast PawDrawEdit) r)).

(** A new array object with the given elements: [[]], [Array.from(a)]. *)
Definition array_new (elements : list PawDrawEdit) : Prog ArrayRef :=
  r ← gets (fun s => length (arrays s));
  modify (set_arrays (fun h => h ++ [elements]));;
  mret r.

(** [new Promise(resolve => ...)]: a pending promise. *)
Definition promise_new : Prog PromiseRef :=
  p ← gets (fun s => length (promises s));
  modify (set_promises (fun ps => ps ++ [None]));;
  mret p.

(** [resolve(value)]: settles a pending promise, and does nothing to a
    settled one. *)
Definition promise_resolve (p : PromiseRef) (value : list Z) : Prog unit :=
  modify (set_promises (fun ps =>
    match ps !! p with
    | Some None => <[p := Some value]> ps
    | _ => ps
    end)).

(** [n++] on a JavaScript number holding a non-negative integer: exact
    below 2^53, where the sum rounds back to 2^53. *)
Definition number_succ (n : N) : N :=
  if (n <? 2 ^ 53)%N then (n + 1)%N else n.

(** [new Uint8Array(numbers)]: every element modulo 2^8. *)
Definition Uint8Array_from (numbers : list Z) : list byte :=
  map (fun z => Utf8.byte_of_N (Z.to_N (z mod 256))) numbers.

Definition isCancellationRequested (cancellation : CancellationToken) (s : Store) : bool :=
  bool_decide (cancellation ∈ cancellationRequested s).

(** ** [class FitsFile] *)

Record PawDrawDocumentDelegate := {
  getFileData : Prog (list byte)
}.

(** The [readonly] fields of a [FitsFile]; the mutable ones are in the
    store. *)
Record FitsFile := {
  _uri : Uri;
  _delegate : PawDrawDocumentDelegate
}.

Definition uri (this : FitsFile) : Uri := _uri this.
Definition documentData (s : Store) : list byte := _documentData s.

Definition readFile (uri : Uri) : Prog (list byte) :=
  if String.eqb (Uri_scheme uri) "untitled" then mret []
  else await_result (ReadFile uri) (fun a => a).

(** The constructor, with the field initialisers [_edits = []] and
    [_savedEdits = []]. *)
Definition FitsFile_new (uri : Uri) (initialContent : list byte)
    (delegate : PawDrawDocumentDelegate) : Prog FitsFile :=
  e ← array_new [];
  modify (set_edits e);;
  se ← array_new [];
  modify (set_savedEdits se);;
  modify (set_documentData initialContent);;
  mret {| _uri := uri; _delegate := delegate |}.

Definition create (uri : Uri) (backupId : option string)
    (delegate : PawDrawDocumentDelegate) : Prog FitsFile :=
  dataFile ← match backupId with
             | Some id => match Uri_parse id with
                          | inl e => Throw e
                          | inr u => mret u
                          end
             | None => mret uri
             end;
  fileData ← readFile dataFile;
  FitsFile_new uri fileData delegate.

(** [this._onDidChangeDocument.fire({content, edits: this._edits})] *)
Definition fire_onDidChangeDocument (content : option (list byte)) : Prog unit :=
  modify (fun s => set_changed (fun l => l ++ [{| content := content; edits := _edits s |}]) s).

Definition makeEdit_undo : Prog unit :=
  r ← gets _edits;
  array_pop r;;
  fire_onDidChangeDocument None.

Definition makeEdit_redo (edit : PawDrawEdit) : Prog unit :=
  r ← gets _edits;
  array_push r edit;;
  fire_onDidChangeDocument None.

Definition makeEdit (this : FitsFile) (edit : PawDrawEdit) : Prog unit :=
  r ← gets _edits;
  array_push r edit;;
  Fire {| label := "Stroke";
          undo := exec makeEdit_undo;
          redo := exec (makeEdit_redo edit) |} (mret tt).

Definition saveAs (this : FitsFile) (targetResource : Uri)
    (cancellation : CancellationToken) : Prog unit :=
  fileData ← getFileData (_delegate this);
  cancelled ← gets (isCancellationRequested cancellation);
  if (cancelled : bool) then mret tt
  else await_result (WriteFile targetResource fileData) (fun a => a).

Definition save (this : FitsFile) (cancellation : CancellationToken) : Prog unit :=
  saveAs this (uri this) cancellation;;
  copy ← (a ← gets edits_value; array_new a);
  modify (set_savedEdits copy).

Definition revert (this : FitsFile) (_cancellation : CancellationToken) : Prog unit :=
  diskContent ← readFile (uri this);
  modify (set_documentData diskContent);;
  modify (fun s => set_edits (_savedEdits s) s);;
  fire_onDidChangeDocument (Some diskContent).

(** [vscode.CustomDocumentBackup]: the fields [id] and [delete]. *)
Record CustomDocumentBackup := {
  backup_id : string;
  backup_delete : Prog unit
}.

Definition backup (this : FitsFile) (destination : Uri)
    (cancellation : CancellationToken) : Prog CustomDocumentBackup :=
  saveAs this destination cancellation;;
  mret {| backup_id := Uri_toString destination;
          backup_delete := try_catch (await_result (Delete destination) (fun a => a))
                                     (fun _ => mret tt) |}.

(** ** [class WebviewCollection] *)

(** [get(uri)], as [Array.from] collects it. *)
Definition WebviewCollection_get (uri : Uri) (s : Store) : list WebviewPanel :=
  map webviewPanel
      (filter (fun entry => resource entry = Uri_toString uri) (_webviews s)).

Definition WebviewCollection_add (uri : Uri) (webviewPanel : WebviewPanel) : Prog unit :=
  modify (set_webviews (fun l =>
    l ++ [{| resource := Uri_toString uri; webviewPanel := webviewPanel |}])).

(** The hooks [add] leaves on a panel: when the panel is disposed, each
    entry made for it is deleted from the set. *)
Definition WebviewCollection_onDidDispose (panel : WebviewPanel) : Prog unit :=
  modify (set_webviews (filter (fun entry => webviewPanel entry ≠ panel))).

(** ** [class FitsProvider] *)

Definition webview_postMessage (panel : WebviewPanel) (type : string)
    (requestId : option N) (body : Body) : Prog unit :=
  modify (set_posted (fun l =>
    l ++ [{| posted_to := panel; posted_type := type;
             posted_requestId := requestId; posted_body := body |}])).

Definition postMessageWithResponse (panel : WebviewPanel) (type : string)
    (body : Body) : Prog PromiseRef :=
  requestId ← gets _requestId;
  modify (set_requestId (number_succ requestId));;
  p ← promise_new;
  modify (set_callbacks (insert requestId p));;
  webview_postMessage panel type (Some requestId) body;;
  mret p.

Definition postMessage (panel : WebviewPanel) (type : string) (body : Body) : Prog unit :=
  webview_postMessage panel type None body.

(** The delegate [openCustomDocument] gives to the document; it reads
    [document.uri], the uri the document is created with. *)
Definition provider_getFileData (document_uri : Uri) : Prog (list byte) :=
  webviewsForDocument ← gets (WebviewCollection_get document_uri);
  match webviewsForDocument with
  | [] => Throw (JsError "Could not find webview to save for")
  | panel :: _ =>
    p ← postMessageWithResponse panel "getFileData" BodyEmpty;
    response ← Await (Settled p) Ret;
    mret (Uint8Array_from response)
  end.

Definition openCustomDocument (uri : Uri) (backupId : option string) : Prog FitsFile :=
  create uri backupId {| getFileData := provider_getFileData uri |}.

Definition onMessage (document : FitsFile) (message : Message) : Prog unit :=
  if String.eqb (type message) "stroke" then
    makeEdit document (as_PawDrawEdit message)
  else if String.eqb (type message) "response" then
    callback ← gets (fun s => requestId message ≫= fun n => _callbacks s !! n);
    match callback with
    | Some resolve => promise_resolve resolve (body message)
    | None => mret tt
    end
  else mret tt.

(** The second listener [resolveCustomEditor] puts on the panel. *)
Definition onReady (document : FitsFile) (webviewPanel : WebviewPanel)
    (e : Message) : Prog unit :=
  if String.eqb (type e) "ready" then
    if String.eqb (Uri_scheme (uri document)) "untitled" then
      postMessage webviewPanel "init" (BodyUntitled true true)
    else
      data ← gets documentData;
      postMessage webviewPanel "init" (BodyValue (Utf8.blob data))
  else mret tt.

(** [resolveCustomEditor] registers the panel; its two listeners are
    [onDidReceiveMessage] below. *)
Definition resolveCustomEditor (document : FitsFile) (webviewPanel : WebviewPanel) : Prog unit :=
  WebviewCollection_add (uri document) webviewPanel.

Definition onDidReceiveMessage (document : FitsFile) (webviewPanel : WebviewPanel)
    (e : Message) : Prog unit :=
  onMessage document e;;
  onReady document webviewPanel e.

Definition saveCustomDocument := save.
Definition saveCustomDocumentAs := saveAs.
Definition revertCustomDocument := revert.
Definition backupCustomDocument := backup.

End Editor.

Arguments Ret {_ A} a.
Arguments Throw {_ A} e.
Arguments Get {_ A} k.
Arguments Put {_ A} s k.
Arguments Fire {_ A} ev k.
Arguments Await {_ A} r k.
Arguments Returned {_ A} a.
Arguments Thrown {_ A} e.
Arguments Suspended {_ A} r k.
Arguments store {_ A} t.
Arguments fired {_ A} t.
Arguments outcome {_ A} t.

(** ** The editor at work

    One opened document, its provider and the host around them. Every
    event is one turn of the host thread: a call of the host, a message
    of a panel, or the resumption of a suspended call with the answer it
    waits for. Events can come in any order. *)

(** The messages a panel sends: a stroke, and the response to the
    request [n]. [rest] stands for whatever else the object carries. *)
Definition stroke_message (e : PawDrawEdit) : Message :=
  {| type := "stroke"; requestId := None; body := []; as_PawDrawEdit := e |}.

Definition response_to (n : N) (payload : list Z) (rest : PawDrawEdit) : Message :=
  {| type := "response"; requestId := Some n; body := payload; as_PawDrawEdit := rest |}.

Section Host.
Context `{VscodeUri}.

(** The document [openCustomDocument] returns for [uri]. *)
Definition document (uri : Uri) : FitsFile :=
  {| _uri := uri; _delegate := {| getFileData := provider_getFileData uri |} |}.

(** The calls of the host that suspend. *)
Inductive Op :=
| OpSave (cancellation : CancellationToken)
| OpSaveAs (destination : Uri) (cancellation : CancellationToken)
| OpRevert (cancellation : CancellationToken)
| OpBackup (destination : Uri) (cancellation : CancellationToken).

Definition call (this : FitsFile) (op : Op) : Prog unit :=
  match op with
  | OpSave c => saveCustomDocument this c
  | OpSaveAs d c => saveCustomDocumentAs this d c
  | OpRevert c => revertCustomDocument this c
  | OpBackup d c => backupCustomDocument this d c;; mret tt
  end.

(** A suspended call. *)
Record Task := {
  task_op : Op;
  task_request : Request;
  task_resume : Answer task_request -> Prog unit
}.

(** A call that has come to its end: which call, the request it was last
    resumed from (if any), whether it returned or threw, and the contents
    of the edit log at that moment. *)
Record Completion := {
  done_op : Op;
  done_after : option Request;
  done_returned : bool;
  done_edits : list PawDrawEdit
}.

Record Sys := {
  sys_store : Store;
  emitted : list DidChange;      (* the events fired on [_onDidChange];
                                    whoever holds one can call its actions *)
  pool : list Task;
  history : list Completion
}.

(** What the host answers to a file-system request. *)
Inductive Reply :=
| ReplyRead (r : Error + list byte)
| ReplyDone (r : Error + unit)
| ReplySettled.

(** The answer a task waiting for [r] is resumed with: the reply of the
    host if it fits the request, the value of the promise once it is
    settled. *)
Definition answer_of (r : Request) (reply : Reply) (s : Store) : option (Answer r) :=
  match r as r0 return option (Answer r0) with
  | ReadFile _ => match reply with ReplyRead a => Some a | _ => None end
  | WriteFile _ _ => match reply with ReplyDone a => Some a | _ => None end
  | Delete _ => match reply with ReplyDone a => Some a | _ => None end
  | Settled p => match reply with
                 | ReplySettled => mjoin (promises s !! p)
                 | _ => None
                 end
  end.

Inductive Event :=
| EvResolveEditor (panel : WebviewPanel)      (* [resolveCustomEditor(document, panel)] *)
| EvOtherEditor (other : Uri) (panel : WebviewPanel)
                                              (* the same for another document *)
| EvOtherRequest (panel : WebviewPanel)       (* another document asks its panel *)
| EvPanelDisposed (panel : WebviewPanel)
| EvMessage (panel : WebviewPanel) (e : Message)
| EvUndo (n : nat)                            (* [undo()] of the [n]-th event fired *)
| EvRedo (n : nat)                            (* [redo()] of the [n]-th event fired *)
| EvCall (op : Op)
| EvCancel (cancellation : CancellationToken)
| EvResume (n : nat) (reply : Reply).         (* the [n]-th suspended call goes on *)

(** The end of a turn of the call [op]. *)
Definition settle (op : Op) (after : option Request) (t : Turn unit) (sys : Sys) : Sys :=
  let done ok := {| done_op := op; done_after := after; done_returned := ok;
                    done_edits := edits_value (store t) |} in
  match outcome t with
  | Returned _ =>
    {| sys_store := store t; emitted := emitted sys ++ fired t;
       pool := pool sys; history := history sys ++ [done true] |}
  | Thrown _ =>
    {| sys_store := store t; emitted := emitted sys ++ fired t;
       pool := pool sys; history := history sys ++ [done false] |}
  | Suspended r k =>
    {| sys_store := store t; emitted := emitted sys ++ fired t;
       pool := pool sys ++ [{| task_op := op; task_request := r; task_resume := k |}];
       history := history sys |}
  end.

(** The end of a turn of a listener or of the host itself. *)
Definition turn (p : Prog unit) (sys : Sys) : Sys :=
  let t := run p (sys_store sys) in
  {| sys_store := store t; emitted := emitted sys ++ fired t;
     pool := pool sys; history := history sys |}.

Definition with_store (f : Store -> Store) (sys : Sys) : Sys :=
  {| sys_store := f (sys_store sys); emitted := emitted sys;
     pool := pool sys; history := history sys |}.

Definition step (this : FitsFile) (ev : Event) (sys : Sys) : Sys :=
  match ev with
  | EvResolveEditor panel => turn (resolveCustomEditor this panel) sys
  | EvOtherEditor other panel => turn (resolveCustomEditor (document other) panel) sys
  | EvOtherRequest panel =>
    turn (postMessageWithResponse panel "getFileData" BodyEmpty;; mret tt) sys
  | EvPanelDisposed panel => turn (WebviewCollection_onDidDispose panel) sys
  | EvMessage panel e => turn (onDidReceiveMessage this panel e) sys
  | EvUndo n =>
    match emitted sys !! n with
    | Some ev => with_store (undo ev) sys
    | None => sys
    end
  | EvRedo n =>
    match emitted sys !! n with
    | Some ev => with_store (redo ev) sys
    | None => sys
    end
  | EvCall op => settle op None (run (call this op) (sys_store sys)) sys
  | EvCancel c => with_store (set_cancellationRequested (cons c)) sys
  | EvResume n reply =>
    match pool sys !! n with
    | Some task =>
      match answer_of (task_request task) reply (sys_store sys) with
      | Some a =>
        settle (task_op task) (Some (task_request task))
               (run (task_resume task a) (sys_store sys))
               {| sys_store := sys_store sys; emitted := emitted sys;
                  pool := delete n (pool sys); history := history sys |}
      | None => sys
      end
    | None => sys
    end
  end.

Definition steps (this : FitsFile) (evs : list Event) (sys : Sys) : Sys :=
  fold_left (fun sys ev => step this ev sys) evs sys.

(** The editor right after [new FitsFile(uri, initialContent, delegate)],
    whatever the provider held before. *)
Definition opened (uri : Uri) (initialContent : list byte) (s : Store) : Sys :=
  {| sys_store := store (run (FitsFile_new uri initialContent (_delegate (document uri))) s);
     emitted := []; pool := []; history := [] |}.

(** *** Reading the history *)

Definition is_save (c : Completion) : bool :=
  match done_op c with OpSave _ => done_returned c | _ => false end.

Definition is_revert (c : Completion) : bool :=
  match done_op c with OpRevert _ => done_returned c | _ => false end.

(** A save that returned after its write went through. *)
Definition is_written_save (c : Completion) : bool :=
  is_save c &&
  match done_after c with Some (WriteFile _ _) => true | _ => false end.

(** The edit log as it was when the most recent [save] returned; the
    empty log of the constructor before the first one. *)
Definition edits_at_last_save (h : list Completion) : list PawDrawEdit :=
  fold_left (fun acc c => if is_save c then done_edits c else acc) h [].

(** The same, counting only the saves whose write went through. *)
Definition edits_at_last_written_save (h : list Completion) : list PawDrawEdit :=
  fold_left (fun acc c => if is_written_save c then done_edits c else acc) h [].

(** Has a [revert] returned since the most recent [save] returned? *)
Definition reverted_since_save (h : list Completion) : bool :=
  fold_left (fun acc c => if is_save c then false
                          else if is_revert c then true else acc) h false.

End Host.

(** ** Vocabulary of the properties *)

Section Vocabulary.
Context `{VscodeUri}.

(** A run of [makeEdit] calls, and the undo actions of a list of fired
    events called in the reverse order of their firing. *)
Definition makeEdits (this : FitsFile) (es : list PawDrawEdit) : Prog unit :=
  foldr (fun e rest => makeEdit this e;; rest) (mret tt) es.

Definition undo_all (evs : list DidChange) (s : Store) : Store :=
  fold_left (fun s ev => undo ev s) (rev evs) s.

(** The event [makeEdit] fires for [edit]. *)
Definition change_of (edit : PawDrawEdit) : DidChange :=
  {| label := "Stroke";
     undo := exec makeEdit_undo;
     redo := exec (makeEdit_redo edit) |}.

(** Two stores in which the document has the same arrays, the same edit
    log and the same bytes. *)
Definition same_document (s1 s2 : Store) : Prop :=
  arrays s1 = arrays s2 /\ _edits s1 = _edits s2 /\ _documentData s1 = _documentData s2.

(** Both fields of the document refer to arrays of the heap. *)
Definition valid_refs (s : Store) : Prop :=
  _edits s < length (arrays s) /\ _savedEdits s < length (arrays s).

(** What a turn does to the edit arrays. [keeps]: it assigns neither
    [_edits] nor [_savedEdits], makes no array and changes no array but
    the one behind [_edits]. [snapshots]: it sets [_savedEdits] to a new
    array with the elements of the edit log. [resets]: it sets [_edits]
    to the array of [_savedEdits]. *)
Definition keeps (s s' : Store) : Prop :=
  _edits s' = _edits s /\
  _savedEdits s' = _savedEdits s /\
  length (arrays s') = length (arrays s) /\
  forall r, r <> _edits s -> arrays s' !! r = arrays s !! r.

Definition snapshots (s s' : Store) : Prop :=
  _edits s' = _edits s /\
  _savedEdits s' = length (arrays s) /\
  arrays s' = arrays s ++ [edits_value s].

Definition resets (s s' : Store) : Prop :=
  _edits s' = _savedEdits s /\
  _savedEdits s' = _savedEdits s /\
  arrays s' = arrays s.

(** What the turn in which a call returns does. *)
Definition returns (op : Op) : Store -> Store -> Prop :=
  match op with
  | OpSave _ => snapshots
  | OpRevert _ => resets
  | OpSaveAs _ _ | OpBackup _ _ => keeps
  end.

Definition action_keeps (ev : DidChange) : Prop :=
  forall s, keeps s (undo ev s) /\ keeps s (redo ev s).

(** [follows post p s0 s]: the turn that began in [s0] and goes on as [p]
    in [s] does [post] when the call returns in it and [keeps] when the
    call throws or is suspended; what it fires are actions that keep;
    and the same holds of every later turn of the call, whatever store it
    is resumed in. *)
Fixpoint follows {A} (post : Store -> Store -> Prop) (p : Prog A) (s0 s : Store) : Prop :=
  match p with
  | Ret _ => post s0 s
  | Throw _ => keeps s0 s
  | Get k => follows post (k s) s0 s
  | Put s' k => follows post k s0 s'
  | Fire ev k => action_keeps ev /\ follows post k s0 s
  | Await r k => keeps s0 s /\ forall a s1, follows post (k a) s1 s1
  end.

(** Every suspended call goes on as its kind of call has to. *)
Definition pool_follows (tasks : list Task) : Prop :=
  Forall (fun task => forall a s1,
              follows (returns (task_op task)) (task_resume task a) s1 s1) tasks.

(** The invariant of the editor. *)
Definition editor_inv (sys : Sys) : Prop :=
  valid_refs (sys_store sys) /\
  (reverted_since_save (history sys) = false ->
   _edits (sys_store sys) <> _savedEdits (sys_store sys) /\
   savedEdits_value (sys_store sys) = edits_at_last_save (history sys)) /\
  Forall action_keeps (emitted sys) /\
  pool_follows (pool sys).

(** What one event does to the store and to the history. *)
Definition event_effect (sys sys' : Sys) : Prop :=
  (history sys' = history sys /\ keeps (sys_store sys) (sys_store sys')) \/
  (exists c,
      history sys' = history sys ++ [c] /\
      done_edits c = edits_value (sys_store sys') /\
      if done_returned c then returns (done_op c) (sys_store sys) (sys_store sys')
      else keeps (sys_store sys) (sys_store sys')).

End Vocabulary.

(** ** A small instance of the host interface, to run the model on *)

Module Plain.

Record PlainUri := {
  plain_scheme : string;
  plain_path : string
}.

Fixpoint split_colon (s : string) : option (string * string) :=
  match s with
  | EmptyString => None
  | String c rest =>
    if Ascii.eqb c ":"%char then Some (EmptyString, rest)
    else match split_colon rest with
         | Some (a, b) => Some (String c a, b)
         | None => None
         end
  end.

(** Scheme and path around the first colon; a string without a colon is
    a path of the scheme [file], and the empty string is refused. *)
Definition plain_parse (s : string) : Error + PlainUri :=
  match s with
  | EmptyString => inl (UriError "empty")
  | _ =>
    match split_colon s with
    | Some (a, b) => inr {| plain_scheme := a; plain_path := b |}
    | None => inr {| plain_scheme := "file"; plain_path := s |}
    end
  end.

#[export] Instance plain_uri : VscodeUri := {|
  Uri := PlainUri;
  Uri_scheme := plain_scheme;
  Uri_toString := fun u => (plain_scheme u ++ ":" ++ plain_path u)%string;
  Uri_parse := plain_parse
|}.

Definition file (path : string) : PlainUri :=
  {| plain_scheme := "file"; plain_path := path |}.

Definition empty_store : Store :=
  {| arrays := []; _documentData := []; _edits := 0; _savedEdits := 0;
     changed := []; _webviews := []; _requestId := 1; _callbacks := ∅;
     promises := []; cancellationRequested := []; posted := [] |}.

Definition red : PawDrawEdit := {| color := "red"; stroke := [(1, 2)%Z] |}.
Definition blue : PawDrawEdit := {| color := "blue"; stroke := [(3, 4)%Z] |}.

Definition sky : PlainUri := file "/sky.fits".

(** A stroke, then a save that is cancelled while the panel answers. *)
Definition cancelled_save : list Event :=
  [EvResolveEditor 0; EvMessage 0 (stroke_message red); EvCall (OpSave 7);
   EvCancel 7; EvMessage 0 (response_to 1 [83; 73]%Z blue); EvResume 0 ReplySettled].

(** A revert, then a stroke. *)
Definition stroke_after_revert : list Event :=
  [EvCall (OpRevert 0); EvResume 0 (ReplyRead (inr [])); EvMessage 0 (stroke_message red)].

(** A save that goes through, a revert, a stroke, and a second revert. *)
Definition revert_twice : list Event :=
  [EvResolveEditor 0;
   EvCall (OpSave 7); EvMessage 0 (response_to 1 [83; 73]%Z blue);
   EvResume 0 ReplySettled; EvResume 0 (ReplyDone (inr tt));
   EvCall (OpRevert 7); EvResume 0 (ReplyRead (inr ["S"%byte; "I"%byte]));
   EvMessage 0 (stroke_message red);
   EvCall (OpRevert 7); EvResume 0 (ReplyRead (inr ["S"%byte; "I"%byte]))].

End Plain.

(** ** Vocabulary of the text transport *)

(** The bytes that occur in no UTF-8 text: C0, C1 and F5 to FF. *)
Definition never_in_utf8 (b : byte) : bool :=
  let n := Byte.to_N b in
  ((n =? 0xC0) || (n =? 0xC1) || (0xF5 <=? n))%N.

(** The code point of an open sequence has room for the continuation
    bytes still to come: it stays below 2^21. *)
Definition pending_ok (st : option Utf8.Pending) : Prop :=
  match st with
  | None => True
  | Some p =>
    1 <= Utf8.bytes_needed p <= 3 /\
    (Utf8.code_point p < 2 ^ (21 - 6 * N.of_nat (Utf8.bytes_needed p)))%N
  end.

(** Well-formed UTF-8, after table 3-7 of the Unicode Standard: the
    ranges of a continuation byte and of the byte after a lead byte. *)
Definition is_continuation (n : N) : bool := ((0x80 <=? n) && (n <=? 0xBF))%N.

Definition second_ok (n1 n2 : N) : bool :=
  (((if n1 =? 0xE0 then 0xA0 else if n1 =? 0xF0 then 0x90 else 0x80) <=? n2) &&
   (n2 <=? (if n1 =? 0xED then 0x9F else if n1 =? 0xF4 then 0x8F else 0xBF)))%N.

Fixpoint well_formed_utf8 (bs : list byte) : bool :=
  match bs with
  | [] => true
  | b1 :: r1 =>
    let n1 := Byte.to_N b1 in
    if (n1 <=? 0x7F)%N then well_formed_utf8 r1
    else if ((0xC2 <=? n1) && (n1 <=? 0xDF))%N then
      match r1 with
      | b2 :: r2 => is_continuation (Byte.to_N b2) && well_formed_utf8 r2
      | _ => false
      end
    else if ((0xE0 <=? n1) && (n1 <=? 0xEF))%N then
      match r1 with
      | b2 :: b3 :: r3 =>
        second_ok n1 (Byte.to_N b2) && is_continuation (Byte.to_N b3) &&
        well_formed_utf8 r3
      | _ => false
      end
    else if ((0xF0 <=? n1) && (n1 <=? 0xF4))%N then
      match r1 with
      | b2 :: b3 :: b4 :: r4 =>
        second_ok n1 (Byte.to_N b2) && is_continuation (Byte.to_N b3) &&
        is_continuation (Byte.to_N b4) && well_formed_utf8 r4
      | _ => false
      end
    else false
  end.

(** The bytes of exactly one well-formed sequence. *)
Definition one_sequence (ns : list N) : bool :=
  match ns with
  | [n1] => (n1 <=? 0x7F)%N
  | [n1; n2] => ((0xC2 <=? n1) && (n1 <=? 0xDF))%N && is_continuation n2
  | [n1; n2; n3] =>
    ((0xE0 <=? n1) && (n1 <=? 0xEF))%N && second_ok n1 n2 && is_continuation n3
  | [n1; n2; n3; n4] =>
    ((0xF0 <=? n1) && (n1 <=? 0xF4))%N && second_ok n1 n2 &&
    is_continuation n3 && is_continuation n4
  | _ => false
  end.

(** The code point of an open sequence after the continuation byte [b],
    as the decoder computes it. *)
Definition continued (cp b : N) : N := N.lor (N.shiftl cp 6) (N.land b 0x3F).

(** ** The script of the panel *)

(** What [JS9.Load] is called with: the Blob [loadFits] builds, or the
    [value] of the body of an 'init' message as it came ([None] when the
    body has no [value]). *)
Inductive JS9Input :=
| LoadBlob (u8a : list byte)
| LoadValue (value : option Utf8.JsString).

Record PanelState := {
  js9_loaded : list JS9Input;       (* the calls of [JS9.Load] *)
  panel_sent : list Message         (* [vscode.postMessage] *)
}.

Definition panel_start : PanelState := {| js9_loaded := []; panel_sent := [] |}.

(** [{ type: 'ready' }] *)
Definition ready_message : Message :=
  {| type := "ready"; requestId := None; body := [];
     as_PawDrawEdit := {| color := EmptyString; stroke := [] |} |}.

(** [body.value] *)
Definition body_value (b : Body) : option Utf8.JsString :=
  match b with
  | BodyValue value => Some value
  | BodyEmpty | BodyUntitled _ _ => None
  end.

(** [function loadFits(data)] *)
Definition panel_loadFits (data : Utf8.JsString) (p : PanelState) : PanelState :=
  {| js9_loaded := js9_loaded p ++ [LoadBlob (Utf8.loadFits data)];
     panel_sent := panel_sent p |}.

(** The listener of [window.addEventListener('message', ...)]. *)
Definition panel_onMessage (m : Posted) (p : PanelState) : PanelState :=
  if String.eqb (posted_type m) "init" then
    {| js9_loaded := js9_loaded p ++ [LoadValue (body_value (posted_body m))];
       panel_sent := panel_sent p |}
  else p.

(** [$(document).ready(...)], after the alert is closed. *)
Definition panel_onDocumentReady (p : PanelState) : PanelState :=
  {| js9_loaded := js9_loaded p; panel_sent := panel_sent p ++ [ready_message] |}.

(** The life of a panel: the document gets ready once, then messages of
    the host come in. *)
Definition panel_run (ms : list Posted) : PanelState :=
  fold_left (fun p m => panel_onMessage m p) ms (panel_onDocumentReady panel_start).

(** ** Laws of the editor

    A law says what a turn may do to the store ([law_keep]), what the
    turn in which a call returns may do ([law_return]), which requests a
    call may wait for ([law_request]), and what may be assumed of the
    store when a call is resumed ([law_inv]). *)

Section Laws.
Context `{VscodeUri}.

Record Law := {
  law_inv : Store -> Prop;
  law_keep : Store -> Store -> Prop;
  law_return : Op -> Store -> Store -> Prop;
  law_request : Request -> Prop
}.

(** The machine can resume a call waiting for [r] with [a] in [s]. *)
Definition resumable (r : Request) (a : Answer r) (s : Store) : Prop :=
  exists reply, answer_of r reply s = Some a.

Definition action_abides (L : Law) (ev : DidChange) : Prop :=
  forall s, law_keep L s (undo ev s) /\ law_keep L s (redo ev s).

(** [abides L post p s0 s]: the turn that began in [s0] and goes on as
    [p] in [s], and every later turn of the same call, abide by [L];
    [post] is what the turn in which the call returns has to do. *)
Fixpoint abides {A} (L : Law) (post : Store -> Store -> Prop) (p : Prog A)
    (s0 s : Store) : Prop :=
  match p with
  | Ret _ => post s0 s
  | Throw _ => law_keep L s0 s
  | Get k => abides L post (k s) s0 s
  | Put s' k => abides L post k s0 s'
  | Fire ev k => action_abides L ev /\ abides L post k s0 s
  | Await r k =>
    law_keep L s0 s /\ law_request L r /\
    forall a s1, law_inv L s1 -> resumable r a s1 -> abides L post (k a) s1 s1
  end.

Definition task_abides (L : Law) (task : Task) : Prop :=
  law_request L (task_request task) /\
  forall a s1,
    law_inv L s1 -> resumable (task_request task) a s1 ->
    abides L (law_return L (task_op task)) (task_resume task a) s1 s1.

Definition law_holds (L : Law) (sys : Sys) : Prop :=
  law_inv L (sys_store sys) /\
  Forall (action_abides L) (emitted sys) /\
  Forall (task_abides L) (pool sys).

(** What one event does, under a law. *)
Definition law_effect (L : Law) (sys sys' : Sys) : Prop :=
  (history sys' = history sys /\ law_keep L (sys_store sys) (sys_store sys')) \/
  (exists c,
      history sys' = history sys ++ [c] /\
      if done_returned c
      then law_return L (done_op c) (sys_store sys) (sys_store sys')
      else law_keep L (sys_store sys) (sys_store sys')).

(** The events whose messages are of a given kind. *)
Definition event_with (allowed : Message -> Prop) (ev : Event) : Prop :=
  match ev with
  | EvMessage _ e => allowed e
  | _ => True
  end.

(** The programs of the machine abide by [L], for the messages of a
    given kind. *)
Record lawful (L : Law) (allowed : Message -> Prop) : Prop := {
  lawful_refl : forall s, law_keep L s s;
  lawful_keep : forall s s', law_inv L s -> law_keep L s s' -> law_inv L s';
  lawful_return : forall op s s', law_inv L s -> law_return L op s s' -> law_inv L s';
  lawful_cancel : forall c s, law_keep L s (set_cancellationRequested (cons c) s);
  lawful_resolve : forall this panel s,
      abides L (law_keep L) (resolveCustomEditor this panel) s s;
  lawful_request : forall panel s,
      abides L (law_keep L)
             (postMessageWithResponse panel "getFileData" BodyEmpty;; mret tt) s s;
  lawful_dispose : forall panel s,
      abides L (law_keep L) (WebviewCollection_onDidDispose panel) s s;
  lawful_message : forall this panel e s,
      allowed e -> abides L (law_keep L) (onDidReceiveMessage this panel e) s s;
  lawful_call : forall u op s,
      abides L (law_return L op) (call (document u) op) s s
}.

(** *** The laws *)

(** A promise that is settled keeps its value. *)
Definition settled_law : Law :=
  {| law_inv := fun _ => True;
     law_keep := fun s s' =>
       forall p v, promises s !! p = Some (Some v) -> promises s' !! p = Some (Some v);
     law_return := fun _ s s' =>
       forall p v, promises s !! p = Some (Some v) -> promises s' !! p = Some (Some v);
     law_request := fun _ => True |}.

(** The ids of the requests posted so far. *)
Definition posted_ids (s : Store) : list N := omap posted_requestId (posted s).

(** Below 2^53 the request ids posted so far are pairwise distinct and
    below [_requestId], and so are the keys of [_callbacks]. *)
Definition bridge_ok (s : Store) : Prop :=
  (_requestId s < 2 ^ 53)%N ->
  NoDup (posted_ids s) /\
  (forall n, n ∈ posted_ids s -> (n < _requestId s)%N) /\
  (forall n, is_Some (_callbacks s !! n) -> (n < _requestId s)%N).

Definition bridge_law : Law :=
  {| law_inv := fun _ => True;
     law_keep := fun s s' => bridge_ok s -> bridge_ok s';
     law_return := fun _ s s' => bridge_ok s -> bridge_ok s';
     law_request := fun _ => True |}.

(** Only the turn in which a [revert] returns changes [documentData]. *)
Definition documentData_law : Law :=
  {| law_inv := fun _ => True;
     law_keep := fun s s' => _documentData s' = _documentData s;
     law_return := fun op s s' =>
       match op with
       | OpRevert _ => True
       | _ => _documentData s' = _documentData s
       end;
     law_request := fun _ => True |}.

(** No promise is settled. *)
Definition all_pending (s : Store) : Prop :=
  forall p v, promises s !! p <> Some (Some v).

(** While no promise is settled: no call waits for a write or a delete,
    and only [revert] returns. *)
Definition unanswered_law : Law :=
  {| law_inv := all_pending;
     law_keep := fun s s' => all_pending s -> all_pending s';
     law_return := fun op s s' =>
       match op with OpRevert _ => True | _ => False end /\
       (all_pending s -> all_pending s');
     law_request := fun r =>
       match r with
       | WriteFile _ _ | Delete _ => False
       | ReadFile _ | Settled _ => True
       end |}.

Definition not_a_response (e : Message) : Prop := type e <> "response".

(** Every request posted so far has its resolver in [_callbacks], and
    [_callbacks] holds nothing else. *)
Definition table_ok (s : Store) : Prop :=
  forall n, n ∈ posted_ids s <-> is_Some (_callbacks s !! n).

Definition table_law : Law :=
  {| law_inv := fun _ => True;
     law_keep := fun s s' => table_ok s -> table_ok s';
     law_return := fun _ s s' => table_ok s -> table_ok s';
     law_request := fun _ => True |}.

(** The two messages of the host: 'init', without request id, and the
    request 'getFileData', with an empty body. *)
Definition host_message (m : Posted) : Prop :=
  (posted_type m = "init" /\ posted_requestId m = None) \/
  (posted_type m = "getFileData" /\ is_Some (posted_requestId m) /\
   posted_body m = BodyEmpty).

Definition posts_ok (s : Store) : Prop := Forall host_message (posted s).

Definition posts_law : Law :=
  {| law_inv := fun _ => True;
     law_keep := fun s s' => posts_ok s -> posts_ok s';
     law_return := fun _ s s' => posts_ok s -> posts_ok s';
     law_request := fun _ => True |}.

(** A message the panel script can have sent, whatever the host sent to
    the panel. *)
Definition from_panel_script (e : Message) : Prop :=
  exists ms, e ∈ panel_sent (panel_run ms).

(** No task waits for a write or a delete. *)
Definition waits_for_no_write (task : Task) : Prop :=
  match task_request task with
  | WriteFile _ _ | Delete _ => False
  | ReadFile _ | Settled _ => True
  end.

(** A call that returned was a [revert]. *)
Definition returned_only_revert (c : Completion) : Prop :=
  done_returned c = true -> exists cancellation, done_op c = OpRevert cancellation.

End Laws.

(** ** The listeners of a panel *)

Section Listeners.
Context `{VscodeUri}.






End Listeners.

(** * Properties *)

(** ** The text transport *)

Section Transport.
Import Utf8.
Local Open Scope N_scope.

Lemma byte_of_to_N (b : byte) : byte_of_N (Byte.to_N b) = b.
Proof. unfold byte_of_N. now rewrite Byte.of_to_N. Qed.

Lemma decode_lead_ascii (b : N) : b < 128 -> decode_lead b = inl [b].
Proof.
  intros Hb. unfold decode_lead.
  destruct (N.leb_spec b 0x7F) as [_ | Hgt]; [reflexivity | lia].
Qed.

Lemma Buffer_from_ascii (c : N) (rest : JsString) :
  c < 128 -> Buffer_from (c :: rest) = byte_of_N c :: Buffer_from rest.
Proof.
  intros Hc. cbn [Buffer_from]. unfold is_high_surrogate, is_low_surrogate.
  destruct (N.leb_spec 0xD800 c) as [Hle | _]; [lia |].
  destruct (N.leb_spec 0xDC00 c) as [Hle | _]; [lia |].
  cbn [andb]. unfold utf8_of_code_point.
  destruct (N.ltb_spec c 0x80) as [_ | Hge]; [reflexivity | lia].
Qed.

(** On 7-bit content the transport loses nothing. *)
Lemma loadFits_blob_ascii (B : list byte) :
  Forall (fun b => Byte.to_N b < 128) B -> loadFits (blob B) = B.
Proof.
  unfold loadFits, blob, Buffer_toString.
  induction 1 as [| b B Hb _ IH]; [reflexivity |].
  cbn [utf8_decode]. rewrite (decode_lead_ascii _ Hb). cbn [app].
  rewrite (Buffer_from_ascii _ _ Hb), IH. now rewrite byte_of_to_N.
Qed.

(** A single byte comes back as itself exactly when it is 7-bit; every
    other byte alone is malformed UTF-8 and comes back as EF BF BD. *)
Lemma loadFits_blob_single (b : byte) :
  (Byte.to_N b < 128 -> loadFits (blob [b]) = [b]) /\
  (128 <= Byte.to_N b -> loadFits (blob [b]) = [xef; xbf; xbd]).
Proof.
  split; intros Hb.
  - apply loadFits_blob_ascii. apply Forall_cons. split; [exact Hb | apply Forall_nil_2].
  - destruct b; vm_compute in Hb; try (exfalso; apply Hb; reflexivity); reflexivity.
Qed.

(** C1 (fails on the code). The provider turns the bytes into a string
    with the UTF-8 decoder and the panel turns the string back with the
    UTF-8 encoder. The byte 0xFF is no UTF-8 text: it is decoded to U+FFFD
    and comes back as the three bytes EF BF BD, so [loadFits (blob B)] is
    not [B]. *)
Theorem C1_transport_loses_0xFF :
  blob [xff] = [0xFFFD] /\
  loadFits (blob [xff]) = [xef; xbf; xbd] /\
  loadFits (blob [xff]) <> [xff].
Proof. split; [reflexivity | split; [reflexivity | discriminate]]. Qed.

End Transport.

Section Facts.
Context `{VscodeUri}.

(** ** Turns *)

Lemma run_from_bind {A B} (m : Prog A) (f : A -> Prog B) (s : Store) (evs : list DidChange) :
  run_from (bind m f) s evs =
  match outcome (run_from m s evs) with
  | Returned a => run_from (f a) (store (run_from m s evs)) (fired (run_from m s evs))
  | Thrown e =>
    {| store := store (run_from m s evs); fired := fired (run_from m s evs);
       outcome := Thrown e |}
  | Suspended r k =>
    {| store := store (run_from m s evs); fired := fired (run_from m s evs);
       outcome := Suspended r (fun a => bind (k a) f) |}
  end.
Proof.
  revert s evs. induction m as [a | e | k IH | s0 k IH | ev k IH | r k IH];
    intros s evs; cbn; auto.
Qed.

(** ** Opening a document *)

(** C7. [create] reads the backup when [backupId] is a string and the
    location otherwise. When the uri it reads has the scheme 'untitled'
    it returns a document with no bytes without any request to the file
    system; otherwise it waits for one [readFile] of that uri, returns a
    document holding the bytes read, and throws the error of the read
    when the read fails. *)
Theorem C7_create_reads_backup_or_location
    (uri : Uri) (backupId : option string) (delegate : PawDrawDocumentDelegate) (s : Store) :
  let doc := {| _uri := uri; _delegate := delegate |} in
  let called := run (create uri backupId delegate) s in
  match (match backupId with Some id => Uri_parse id | None => inr uri end) with
  | inl e => called = {| store := s; fired := []; outcome := Thrown e |}
  | inr dataFile =>
    if String.eqb (Uri_scheme dataFile) "untitled" then
      outcome called = Returned doc /\ _documentData (store called) = []
    else
      exists k,
        called = {| store := s; fired := [];
                    outcome := Suspended (ReadFile dataFile) k |} /\
        forall s',
          (forall data,
              outcome (run (k (inr data)) s') = Returned doc /\
              _documentData (store (run (k (inr data)) s')) = data) /\
          (forall e,
              run (k (inl e)) s' = {| store := s'; fired := []; outcome := Thrown e |})
  end.
Proof.
  intros doc called. subst called. unfold create.
  destruct backupId as [id |].
  - destruct (Uri_parse id) as [e | dataFile]; [reflexivity |].
    cbn. unfold readFile.
    destruct (String.eqb (Uri_scheme dataFile) "untitled"); cbn.
    + split; reflexivity.
    + eexists. split; [reflexivity |].
      intros s'. split; [intros data; split; reflexivity | reflexivity].
  - cbn. unfold readFile.
    destruct (String.eqb (Uri_scheme uri) "untitled"); cbn.
    + split; reflexivity.
    + eexists. split; [reflexivity |].
      intros s'. split; [intros data; split; reflexivity | reflexivity].
Qed.

(** ** The registry and the delegate *)

Lemma WebviewCollection_get_nil (uri : Uri) (s : Store) :
  WebviewCollection_get uri s = [] <->
  ~ exists entry, entry ∈ _webviews s /\ resource entry = Uri_toString uri.
Proof.
  unfold WebviewCollection_get. split.
  - intros Hnil [entry [Hin Hres]].
    assert (Hm : webviewPanel entry ∈
                 map webviewPanel
                     (filter (fun e => resource e = Uri_toString uri) (_webviews s))).
    { apply list_elem_of_In, in_map, list_elem_of_In, list_elem_of_filter. auto. }
    rewrite Hnil in Hm. inversion Hm.
  - intros Hno.
    destruct (filter (fun e => resource e = Uri_toString uri) (_webviews s))
      as [| entry l] eqn:Hf; [reflexivity |].
    exfalso. apply Hno. exists entry.
    assert (Hin : entry ∈ filter (fun e => resource e = Uri_toString uri) (_webviews s))
      by (rewrite Hf; left).
    apply list_elem_of_filter in Hin as [Hres Hin]. auto.
Qed.

(** The registry keeps insertion order: the first panel [get] yields is
    the one of the first entry made for the resource. *)
Lemma WebviewCollection_get_first (uri : Uri) (s : Store)
    (before after : list WebviewEntry) (panel : WebviewPanel) :
  _webviews s =
    before ++ {| resource := Uri_toString uri; webviewPanel := panel |} :: after ->
  Forall (fun entry => resource entry <> Uri_toString uri) before ->
  exists others, WebviewCollection_get uri s = panel :: others.
Proof.
  intros Hw Hbefore. unfold WebviewCollection_get. rewrite Hw, filter_app.
  assert (Hnil : filter (fun entry => resource entry = Uri_toString uri) before = []).
  { clear Hw. induction Hbefore as [| x l Hx _ IH]; [reflexivity |].
    rewrite filter_cons_False; assumption. }
  rewrite Hnil, filter_cons_True by reflexivity. cbn. eexists. reflexivity.
Qed.

Lemma WebviewCollection_add_last (uri : Uri) (panel : WebviewPanel) (s : Store) :
  _webviews (exec (WebviewCollection_add uri panel) s) =
  _webviews s ++ [{| resource := Uri_toString uri; webviewPanel := panel |}].
Proof. reflexivity. Qed.

(** C9. The delegate of a document throws exactly when the registry has
    no entry for the uri of the document. With an entry it throws
    neither at once nor later: it waits for the response and returns its
    bytes. *)
Theorem C9_getFileData_throws_iff_no_panel (uri : Uri) (s : Store) :
  let registered :=
    exists entry, entry ∈ _webviews s /\ resource entry = Uri_toString uri in
  let called := run (getFileData (_delegate (document uri))) s in
  ((exists e, outcome called = Thrown e) <-> ~ registered) /\
  (~ registered ->
   outcome called = Thrown (JsError "Could not find webview to save for")) /\
  (registered ->
   exists p k,
     outcome called = Suspended (Settled p) k /\
     forall response s',
       run (k response) s' =
       {| store := s'; fired := []; outcome := Returned (Uint8Array_from response) |}).
Proof.
  intros registered called.
  assert (Hnil := WebviewCollection_get_nil uri s). fold registered in Hnil.
  subst called. cbn. unfold provider_getFileData. cbn.
  destruct (WebviewCollection_get uri s) as [| panel others]; cbn.
  - assert (Hnr : ~ registered) by (apply Hnil; reflexivity).
    split; [| split].
    + split; [auto | eauto].
    + auto.
    + intros Hr. contradiction.
  - assert (Hr : ~ ~ registered) by (intros Hn; apply Hnil in Hn; discriminate).
    split; [| split].
    + split; [intros [e He]; discriminate | intros Hn; contradiction].
    + intros Hn. contradiction.
    + intros _. eexists _, _. split; reflexivity.
Qed.

(** C10. When several panels are registered for the uri of a document,
    the delegate posts its one 'getFileData' request to the panel
    registered first, and what it returns are the bytes of the response
    to that request. *)
Theorem C10_getFileData_asks_first_panel (uri : Uri) (s : Store)
    (before after : list WebviewEntry) (panel : WebviewPanel) :
  _webviews s =
    before ++ {| resource := Uri_toString uri; webviewPanel := panel |} :: after ->
  Forall (fun entry => resource entry <> Uri_toString uri) before ->
  let called := run (getFileData (_delegate (document uri))) s in
  posted (store called) =
    posted s ++ [{| posted_to := panel; posted_type := "getFileData";
                    posted_requestId := Some (_requestId s);
                    posted_body := BodyEmpty |}] /\
  exists k,
    outcome called = Suspended (Settled (length (promises s))) k /\
    forall response s',
      run (k response) s' =
      {| store := s'; fired := []; outcome := Returned (Uint8Array_from response) |}.
Proof.
  intros Hw Hbefore called. subst called.
  destruct (WebviewCollection_get_first uri s before after panel Hw Hbefore)
    as [others Hget].
  cbn. unfold provider_getFileData. cbn. rewrite Hget. cbn.
  split; [reflexivity |]. eexists. split; reflexivity.
Qed.

(** ** Saving *)

(** C6. [saveAs] looks at the cancellation token in the turn in which
    the delegate hands over the bytes: when cancellation is requested by
    then, the call returns in that turn, the store as it was, without a
    [writeFile]; only otherwise does it go on to [writeFile] the bytes to
    the target. Without a panel the delegate throws and nothing is
    written either. *)
Theorem C6_saveAs_cancelled_writes_nothing
    (uri targetResource : Uri) (cancellation : CancellationToken) (s : Store) :
  let called := run (saveAs (document uri) targetResource cancellation) s in
  match WebviewCollection_get uri s with
  | [] => outcome called = Thrown (JsError "Could not find webview to save for")
  | _ :: _ =>
    exists p k,
      outcome called = Suspended (Settled p) k /\
      forall response s',
        if isCancellationRequested cancellation s' then
          run (k response) s' = {| store := s'; fired := []; outcome := Returned tt |}
        else
          exists k',
            run (k response) s' =
            {| store := s'; fired := [];
               outcome := Suspended (WriteFile targetResource (Uint8Array_from response)) k' |}
  end.
Proof.
  intros called. subst called. unfold saveAs. cbn. unfold provider_getFileData. cbn.
  destruct (WebviewCollection_get uri s) as [| panel others]; cbn; [reflexivity |].
  eexists _, _. split; [reflexivity |].
  intros response s'. cbn.
  destruct (isCancellationRequested cancellation s'); cbn; [reflexivity |].
  eexists. reflexivity.
Qed.

(** ** The message bridge *)

Lemma onMessage_response (this : FitsFile) (n : N) (payload : list Z)
    (rest : PawDrawEdit) (s : Store) (p : PromiseRef) :
  _callbacks s !! n = Some p ->
  exec (onMessage this (response_to n payload rest)) s =
  set_promises (fun ps => match ps !! p with
                          | Some None => <[p := Some payload]> ps
                          | _ => ps
                          end) s.
Proof. intros Hcb. unfold exec, onMessage. cbn. rewrite Hcb. reflexivity. Qed.

(** C2 (as the code has it). A request takes the current [_requestId]
    as its id [n], and puts the resolver of a new pending promise under
    [n] in [_callbacks]. When a response with id [n] and payload [P]
    arrives while the promise is pending, the promise is settled with
    [P]. The entry for [n] is not removed: [_callbacks] is the same after
    the response. A further response with id [n] calls the resolver
    again, which leaves the settled promise, and the whole store, as
    they are. *)
Theorem C2_response_settles_once_entry_stays
    (this : FitsFile) (panel : WebviewPanel) (ty : string) (b : Body) (s : Store) :
  let n := _requestId s in
  let p := length (promises s) in
  let sent := run (postMessageWithResponse panel ty b) s in
  (outcome sent = Returned p /\
   _callbacks (store sent) !! n = Some p /\
   promises (store sent) !! p = Some None) /\
  forall (s' : Store) (P P' : list Z) (rest rest' : PawDrawEdit),
    _callbacks s' !! n = Some p ->
    promises s' !! p = Some None ->
    let s1 := exec (onMessage this (response_to n P rest)) s' in
    promises s1 !! p = Some (Some P) /\
    _callbacks s1 = _callbacks s' /\
    exec (onMessage this (response_to n P' rest')) s1 = s1.
Proof.
  intros n p sent. subst n p sent. split.
  - cbn. split; [reflexivity |]. split.
    + apply lookup_insert_eq.
    + apply list_lookup_middle. reflexivity.
  - intros s' P P' rest rest' Hcb Hpending s1. subst s1.
    rewrite (onMessage_response this _ P rest s' _ Hcb).
    assert (Hlt : length (promises s) < length (promises s')).
    { apply lookup_lt_is_Some. eauto. }
    split; [| split].
    + unfold set_promises. cbn -[lookup insert]. rewrite Hpending.
      apply list_lookup_insert_eq. exact Hlt.
    + reflexivity.
    + rewrite (onMessage_response this _ P' rest' _ (length (promises s)))
        by exact Hcb.
      unfold set_promises. cbn -[lookup insert]. rewrite Hpending.
      rewrite list_lookup_insert_eq by exact Hlt. reflexivity.
Qed.

End Facts.

(** ** The edit log *)

Section EditLog.
Context `{VscodeUri}.

Lemma run_makeEdit (this : FitsFile) (e : PawDrawEdit) (s : Store) (evs : list DidChange) :
  run_from (makeEdit this e) s evs =
  {| store := set_arrays (alter (fun a => a ++ [e]) (_edits s)) s;
     fired := evs ++ [change_of e];
     outcome := Returned tt |}.
Proof. reflexivity. Qed.

Lemma run_makeEdits (this : FitsFile) (es : list PawDrawEdit) :
  forall (s : Store) (evs : list DidChange),
    run_from (makeEdits this es) s evs =
    {| store := fold_left (fun s e => store (run (makeEdit this e) s)) es s;
       fired := evs ++ map change_of es;
       outcome := Returned tt |}.
Proof.
  induction es as [| e es IH]; intros s evs.
  - cbn. now rewrite app_nil_r.
  - cbn [makeEdits foldr]. change (foldr _ _ es) with (makeEdits this es).
    unfold mbind, Prog_bind. rewrite run_from_bind, run_makeEdit.
    cbn [outcome store fired]. rewrite IH. cbn [map fold_left].
    now rewrite <- app_assoc.
Qed.

Lemma pop_push (e : PawDrawEdit) (r : nat) (h : list (list PawDrawEdit)) :
  alter (@removelast PawDrawEdit) r (alter (fun a => a ++ [e]) r h) = h.
Proof.
  rewrite list_alter_alter_eq. apply list_alter_id.
  intros a. cbn. apply removelast_last.
Qed.

Lemma undo_makeEdit (this : FitsFile) (e : PawDrawEdit) (s s1 : Store) :
  same_document s1 (store (run (makeEdit this e) s)) ->
  same_document (undo (change_of e) s1) s.
Proof.
  intros (Ha & He & Hd). cbn in Ha, He, Hd.
  unfold same_document. cbn -[alter]. rewrite He, Ha, Hd, pop_push. auto.
Qed.

Lemma undo_all_makeEdits (this : FitsFile) (es : list PawDrawEdit) :
  forall s s1 : Store,
    same_document s1 (fold_left (fun s e => store (run (makeEdit this e) s)) es s) ->
    same_document (undo_all (map change_of es) s1) s.
Proof.
  induction es as [| e es IH] using rev_ind; intros s s1 Hsame.
  - exact Hsame.
  - unfold undo_all. rewrite map_app, rev_app_distr. cbn [map rev app fold_left].
    apply IH. apply (undo_makeEdit this e).
    now rewrite fold_left_app in Hsame.
Qed.

Lemma actions_keep_documentData (e : PawDrawEdit) (s : Store) :
  _documentData (undo (change_of e) s) = _documentData s /\
  _documentData (redo (change_of e) s) = _documentData s.
Proof. split; reflexivity. Qed.

(** C4. After any number of [makeEdit] calls, calling the undo actions
    they fired, last one first, gives back the edit log the calls began
    with; and no undo or redo action changes [documentData]. *)
Theorem C4_undo_in_reverse_restores_the_log
    (this : FitsFile) (es : list PawDrawEdit) (s : Store) :
  let edited := run (makeEdits this es) s in
  let undone := undo_all (fired edited) (store edited) in
  length (fired edited) = length es /\
  edits_value undone = edits_value s /\
  _documentData undone = _documentData s /\
  forall ev, ev ∈ fired edited ->
    forall x, _documentData (undo ev x) = _documentData x /\
              _documentData (redo ev x) = _documentData x.
Proof.
  intros edited undone. subst undone edited. unfold run.
  rewrite run_makeEdits. cbn [fired store app].
  split; [now rewrite length_map |].
  destruct (undo_all_makeEdits this es s _ (conj eq_refl (conj eq_refl eq_refl)))
    as (Ha & He & Hd).
  split; [| split].
  - unfold edits_value. now rewrite Ha, He.
  - exact Hd.
  - intros ev Hev x. apply list_elem_of_In, in_map_iff in Hev as (e & <- & _).
    apply actions_keep_documentData.
Qed.

(** C5. The redo action fired for an edit [e], called right after the
    undo action fired with it, puts [e] itself back at the end of the
    edit log: the log is what undo left, followed by [e]. Right after
    [makeEdit] that is the log [makeEdit] made. *)
Theorem C5_redo_after_undo_appends_the_edit
    (this : FitsFile) (e : PawDrawEdit) (s s' : Store) :
  _edits s < length (arrays s) ->
  _edits s' < length (arrays s') ->
  let made := run (makeEdit this e) s in
  exists ev,
    fired made = [ev] /\
    edits_value (store made) = edits_value s ++ [e] /\
    edits_value (redo ev (undo ev (store made))) = edits_value s ++ [e] /\
    edits_value (undo ev s') = removelast (edits_value s') /\
    edits_value (redo ev (undo ev s')) = removelast (edits_value s') ++ [e] /\
    last (edits_value (redo ev (undo ev s'))) = Some e.
Proof.
  intros Hs Hs' made. subst made. exists (change_of e).
  assert (Hundo : forall x, _edits x < length (arrays x) ->
            edits_value (undo (change_of e) x) = removelast (edits_value x)).
  { intros x Hx. unfold edits_value. cbn -[alter lookup_total].
    now rewrite list_lookup_total_alter_eq. }
  assert (Hredo : forall x, _edits x < length (arrays x) ->
            edits_value (redo (change_of e) (undo (change_of e) x)) =
            removelast (edits_value x) ++ [e]).
  { intros x Hx. unfold edits_value. cbn -[alter lookup_total].
    rewrite !list_lookup_total_alter_eq; rewrite ?length_alter; auto. }
  assert (Hmade : edits_value (store (run (makeEdit this e) s)) = edits_value s ++ [e]).
  { unfold edits_value. cbn -[alter lookup_total].
    now rewrite list_lookup_total_alter_eq. }
  split; [reflexivity |]. split; [exact Hmade |]. split; [| split; [| split]].
  - rewrite Hredo, Hmade, removelast_last; [reflexivity |].
    cbn -[alter]. now rewrite length_alter.
  - now apply Hundo.
  - now apply Hredo.
  - rewrite Hredo by exact Hs'. apply last_snoc.
Qed.

End EditLog.

(** ** What the turns do to the edit arrays *)

Section Turns.
Context `{VscodeUri}.

Ltac keeps_record :=
  unfold keeps; cbn -[alter lookup];
  repeat split; rewrite ?length_alter; auto;
  intros; rewrite ?list_lookup_alter_ne by auto; auto.

Lemma keeps_refl (s : Store) : keeps s s.
Proof. keeps_record. Qed.

Lemma follows_run {A} (post : Store -> Store -> Prop) (p : Prog A) :
  forall (s0 s : Store) (evs : list DidChange),
    follows post p s0 s ->
    Forall action_keeps evs ->
    Forall action_keeps (fired (run_from p s evs)) /\
    match outcome (run_from p s evs) with
    | Returned _ => post s0 (store (run_from p s evs))
    | Thrown _ => keeps s0 (store (run_from p s evs))
    | Suspended r k =>
      keeps s0 (store (run_from p s evs)) /\
      forall a s1, follows post (k a) s1 s1
    end.
Proof.
  induction p as [a | e | k IH | s' k IH | ev k IH | r k IH];
    intros s0 s evs Hp Hevs; cbn in *; auto.
  destruct Hp as [Hev Hp]. apply IH; [exact Hp |].
  apply Forall_app. auto.
Qed.

Lemma change_of_keeps (e : PawDrawEdit) : action_keeps (change_of e).
Proof. intros s. split; keeps_record. Qed.

Lemma makeEdit_follows (this : FitsFile) (e : PawDrawEdit) (s : Store) :
  follows keeps (makeEdit this e) s s.
Proof. cbn. split; [apply change_of_keeps | keeps_record]. Qed.

Lemma resolveCustomEditor_follows (this : FitsFile) (panel : WebviewPanel) (s : Store) :
  follows keeps (resolveCustomEditor this panel) s s.
Proof. cbn. keeps_record. Qed.

Lemma postMessageWithResponse_follows (panel : WebviewPanel) (ty : string)
    (b : Body) (s : Store) :
  follows keeps (postMessageWithResponse panel ty b;; mret tt) s s.
Proof. cbn. keeps_record. Qed.

Lemma onDidDispose_follows (panel : WebviewPanel) (s : Store) :
  follows keeps (WebviewCollection_onDidDispose panel) s s.
Proof. cbn. keeps_record. Qed.

Lemma onDidReceiveMessage_follows (this : FitsFile) (panel : WebviewPanel)
    (e : Message) (s : Store) :
  follows keeps (onDidReceiveMessage this panel e) s s.
Proof.
  unfold onDidReceiveMessage, onMessage, onReady.
  destruct (String.eqb (type e) "stroke") eqn:Hstroke.
  - cbn. split; [apply change_of_keeps |].
    destruct (String.eqb (type e) "ready"); cbn;
      [destruct (String.eqb (Uri_scheme (uri this)) "untitled"); cbn |];
      keeps_record.
  - destruct (String.eqb (type e) "response"); cbn.
    + destruct (requestId e ≫= _) as [p |]; cbn;
        (destruct (String.eqb (type e) "ready"); cbn;
         [destruct (String.eqb (Uri_scheme (uri this)) "untitled"); cbn |]);
        keeps_record.
    + destruct (String.eqb (type e) "ready"); cbn;
        [destruct (String.eqb (Uri_scheme (uri this)) "untitled"); cbn |];
        keeps_record.
Qed.

Lemma saveAs_follows (u destination : Uri) (c : CancellationToken) (s : Store) :
  follows keeps (saveAs (document u) destination c) s s.
Proof.
  unfold saveAs. cbn. unfold provider_getFileData. cbn.
  destruct (WebviewCollection_get u s) as [| panel others]; cbn; [keeps_record |].
  split; [keeps_record |]. intros response s1. cbn.
  destruct (isCancellationRequested c s1); cbn; [keeps_record |].
  split; [keeps_record |]. intros [e | []] s2; cbn; keeps_record.
Qed.

Lemma save_follows (u : Uri) (c : CancellationToken) (s : Store) :
  follows snapshots (save (document u) c) s s.
Proof.
  unfold save, saveAs. cbn. unfold provider_getFileData. cbn.
  destruct (WebviewCollection_get u s) as [| panel others]; cbn; [keeps_record |].
  split; [keeps_record |]. intros response s1. cbn.
  destruct (isCancellationRequested c s1); cbn.
  - unfold snapshots. cbn. auto.
  - split; [keeps_record |]. intros [e | []] s2; cbn; [keeps_record |].
    unfold snapshots. cbn. auto.
Qed.

Lemma revert_follows (this : FitsFile) (c : CancellationToken) (s : Store) :
  follows resets (revert this c) s s.
Proof.
  unfold revert, readFile.
  destruct (String.eqb (Uri_scheme (uri this)) "untitled"); cbn.
  - unfold resets. cbn. auto.
  - split; [keeps_record |]. intros [e | data] s1; cbn; [keeps_record |].
    unfold resets. cbn. auto.
Qed.

Lemma backup_follows (u destination : Uri) (c : CancellationToken) (s : Store) :
  follows keeps (backup (document u) destination c;; mret tt) s s.
Proof.
  unfold backup, saveAs. cbn. unfold provider_getFileData. cbn.
  destruct (WebviewCollection_get u s) as [| panel others]; cbn; [keeps_record |].
  split; [keeps_record |]. intros response s1. cbn.
  destruct (isCancellationRequested c s1); cbn; [keeps_record |].
  split; [keeps_record |]. intros [e | []] s2; cbn; keeps_record.
Qed.

Lemma call_follows (u : Uri) (op : Op) (s : Store) :
  follows (returns op) (call (document u) op) s s.
Proof.
  destruct op as [c | d c | c | d c]; cbn [call returns].
  - apply save_follows.
  - apply saveAs_follows.
  - apply revert_follows.
  - apply backup_follows.
Qed.

End Turns.

(** ** The invariant of the editor *)

Section Reachable.
Context `{VscodeUri}.

Lemma keeps_valid_refs (s s' : Store) : keeps s s' -> valid_refs s -> valid_refs s'.
Proof. intros (He & Hs & Hlen & _) [? ?]. unfold valid_refs. rewrite He, Hs, Hlen. auto. Qed.

Lemma keeps_distinct (s s' : Store) :
  keeps s s' -> _edits s <> _savedEdits s -> _edits s' <> _savedEdits s'.
Proof. intros (He & Hs & _) Hne. now rewrite He, Hs. Qed.

Lemma keeps_savedEdits_value (s s' : Store) :
  keeps s s' -> _edits s <> _savedEdits s -> savedEdits_value s' = savedEdits_value s.
Proof.
  intros (He & Hs & _ & Hsame) Hne. unfold savedEdits_value.
  rewrite !list_lookup_total_alt, Hs, Hsame; auto.
Qed.

Lemma snapshots_fresh (s s' : Store) :
  snapshots s s' -> valid_refs s ->
  valid_refs s' /\ _edits s' <> _savedEdits s' /\
  savedEdits_value s' = edits_value s' /\ edits_value s' = edits_value s.
Proof.
  intros (He & Hs & Ha) [Hve Hvs].
  unfold valid_refs, savedEdits_value. unfold edits_value at 1 2.
  rewrite He, Hs, Ha, length_app. cbn [length].
  repeat split; try lia.
  - rewrite list_lookup_total_middle by reflexivity.
    rewrite lookup_total_app_l by exact Hve. reflexivity.
  - rewrite lookup_total_app_l by exact Hve. reflexivity.
Qed.

Lemma resets_savedEdits (s s' : Store) :
  resets s s' -> valid_refs s ->
  valid_refs s' /\ savedEdits_value s' = savedEdits_value s /\
  edits_value s' = savedEdits_value s.
Proof.
  intros (He & Hs & Ha) [Hve Hvs].
  unfold valid_refs, savedEdits_value, edits_value. rewrite He, Hs, Ha. auto.
Qed.

(** *** The history *)

Lemma edits_at_last_save_snoc (h : list Completion) (c : Completion) :
  edits_at_last_save (h ++ [c]) =
  if is_save c then done_edits c else edits_at_last_save h.
Proof. unfold edits_at_last_save. now rewrite fold_left_app. Qed.

Lemma reverted_since_save_snoc (h : list Completion) (c : Completion) :
  reverted_since_save (h ++ [c]) =
  if is_save c then false
  else if is_revert c then true else reverted_since_save h.
Proof. unfold reverted_since_save. now rewrite fold_left_app. Qed.

Lemma no_new_save (h : list Completion) (c : Completion) :
  filter is_save (h ++ [c]) = filter is_save h -> is_save c = false.
Proof.
  intros Hf. destruct (is_save c) eqn:Hc; [| reflexivity].
  rewrite filter_app, filter_cons_True in Hf by (now rewrite Hc).
  apply (f_equal length) in Hf. rewrite length_app in Hf. cbn in Hf. lia.
Qed.

(** *** One event *)

Lemma settle_effect (op : Op) (after : option Request) (p : Prog unit) (sys : Sys) :
  follows (returns op) p (sys_store sys) (sys_store sys) ->
  Forall action_keeps (emitted sys) ->
  pool_follows (pool sys) ->
  let sys' := settle op after (run p (sys_store sys)) sys in
  event_effect sys sys' /\
  Forall action_keeps (emitted sys') /\
  pool_follows (pool sys').
Proof.
  intros Hp Hact Hpool sys'. subst sys'.
  destruct (follows_run _ p _ _ [] Hp (Forall_nil_2 _)) as [Hfired Hout].
  fold (run p (sys_store sys)) in Hfired, Hout.
  unfold settle, event_effect.
  destruct (outcome (run p (sys_store sys))) as [[] | e | r k]; cbn -[filter].
  - split.
    + right. eexists. split; [reflexivity |]. cbn. auto.
    + split; [apply Forall_app; split; auto | exact Hpool].
  - split.
    + right. eexists. split; [reflexivity |]. cbn. auto.
    + split; [apply Forall_app; split; auto | exact Hpool].
  - destruct Hout as [Hk Hrest]. split.
    + left. auto.
    + split; [apply Forall_app; split; auto |].
      apply Forall_app. split; [exact Hpool |].
      apply Forall_cons. split; [exact Hrest | apply Forall_nil_2].
Qed.

Lemma turn_effect (p : Prog unit) (sys : Sys) :
  follows keeps p (sys_store sys) (sys_store sys) ->
  Forall action_keeps (emitted sys) ->
  pool_follows (pool sys) ->
  event_effect sys (turn p sys) /\
  Forall action_keeps (emitted (turn p sys)) /\
  pool_follows (pool (turn p sys)).
Proof.
  intros Hp Hact Hpool.
  destruct (follows_run _ p _ _ [] Hp (Forall_nil_2 _)) as [Hfired Hout].
  fold (run p (sys_store sys)) in Hfired, Hout.
  unfold turn, event_effect. cbn. split.
  - left. split; [reflexivity |].
    destruct (outcome (run p (sys_store sys))); tauto.
  - split; [apply Forall_app; split; auto | exact Hpool].
Qed.

Lemma with_store_effect (f : Store -> Store) (sys : Sys) :
  keeps (sys_store sys) (f (sys_store sys)) ->
  Forall action_keeps (emitted sys) ->
  pool_follows (pool sys) ->
  event_effect sys (with_store f sys) /\
  Forall action_keeps (emitted (with_store f sys)) /\
  pool_follows (pool (with_store f sys)).
Proof. intros Hk Hact Hpool. unfold event_effect. cbn. auto. Qed.

Lemma event_effect_refl (sys : Sys) : event_effect sys sys.
Proof. left. split; [reflexivity | apply keeps_refl]. Qed.

Lemma step_effect (u : Uri) (ev : Event) (sys : Sys) :
  Forall action_keeps (emitted sys) ->
  pool_follows (pool sys) ->
  event_effect sys (step (document u) ev sys) /\
  Forall action_keeps (emitted (step (document u) ev sys)) /\
  pool_follows (pool (step (document u) ev sys)).
Proof.
  intros Hact Hpool.
  destruct ev as [panel | other panel | panel | panel | panel e | n | n | op | c | n reply];
    cbn [step].
  - apply turn_effect; auto. apply resolveCustomEditor_follows.
  - apply turn_effect; auto. apply resolveCustomEditor_follows.
  - apply turn_effect; auto. apply postMessageWithResponse_follows.
  - apply turn_effect; auto. apply onDidDispose_follows.
  - apply turn_effect; auto. apply onDidReceiveMessage_follows.
  - destruct (emitted sys !! n) as [ev |] eqn:Hn;
      [| auto using event_effect_refl].
    apply with_store_effect; auto.
    apply (Forall_lookup_1 _ _ _ _ Hact Hn).
  - destruct (emitted sys !! n) as [ev |] eqn:Hn;
      [| auto using event_effect_refl].
    apply with_store_effect; auto.
    apply (Forall_lookup_1 _ _ _ _ Hact Hn).
  - apply settle_effect; auto. apply call_follows.
  - apply with_store_effect; auto. unfold keeps. cbn. auto.
  - destruct (pool sys !! n) as [task |] eqn:Hn;
      [| auto using event_effect_refl].
    destruct (answer_of (task_request task) reply (sys_store sys)) as [a |];
      [| auto using event_effect_refl].
    apply (settle_effect (task_op task) (Some (task_request task)) (task_resume task a)
             {| sys_store := sys_store sys; emitted := emitted sys;
                pool := delete n (pool sys); history := history sys |}); cbn.
    + apply (Forall_lookup_1 _ _ _ _ Hpool Hn).
    + exact Hact.
    + apply Forall_delete. exact Hpool.
Qed.

Lemma effect_inv (sys sys' : Sys) :
  editor_inv sys ->
  event_effect sys sys' ->
  Forall action_keeps (emitted sys') ->
  pool_follows (pool sys') ->
  editor_inv sys'.
Proof.
  intros (Hvalid & Hsaved & _ & _) Heff Hact Hpool.
  unfold editor_inv. split; [| split; [| split; assumption]].
  - destruct Heff as [[_ Hk] | (c & _ & _ & Hc)].
    + eapply keeps_valid_refs; eauto.
    + destruct (done_returned c); [| eapply keeps_valid_refs; eauto].
      destruct (done_op c); cbn in Hc.
      * now apply snapshots_fresh in Hc.
      * eapply keeps_valid_refs; eauto.
      * now apply resets_savedEdits in Hc.
      * eapply keeps_valid_refs; eauto.
  - destruct Heff as [[Hh Hk] | (c & Hh & Hedits & Hc)]; rewrite Hh.
    + intros Hrev. destruct (Hsaved Hrev) as [Hne Hval]. split.
      * eapply keeps_distinct; eauto.
      * rewrite <- Hval. now apply keeps_savedEdits_value.
    + rewrite reverted_since_save_snoc, edits_at_last_save_snoc.
      unfold is_save, is_revert.
      destruct (done_returned c).
      * destruct (done_op c); cbn in Hc |- *.
        -- intros _. apply snapshots_fresh in Hc as (_ & Hne & Hval & _); auto.
           split; [exact Hne | congruence].
        -- intros Hrev. destruct (Hsaved Hrev) as [Hne Hval]. split.
           ++ eapply keeps_distinct; eauto.
           ++ rewrite <- Hval. now apply keeps_savedEdits_value.
        -- discriminate.
        -- intros Hrev. destruct (Hsaved Hrev) as [Hne Hval]. split.
           ++ eapply keeps_distinct; eauto.
           ++ rewrite <- Hval. now apply keeps_savedEdits_value.
      * assert (Hgoal : reverted_since_save (history sys) = false ->
                  _edits (sys_store sys') <> _savedEdits (sys_store sys') /\
                  savedEdits_value (sys_store sys') = edits_at_last_save (history sys)).
        { intros Hrev. destruct (Hsaved Hrev) as [Hne Hval]. split.
          - eapply keeps_distinct; eauto.
          - rewrite <- Hval. now apply keeps_savedEdits_value. }
        destruct (done_op c); exact Hgoal.
Qed.

Lemma step_inv (u : Uri) (ev : Event) (sys : Sys) :
  editor_inv sys -> editor_inv (step (document u) ev sys).
Proof.
  intros Hinv. pose proof Hinv as (_ & _ & Hact & Hpool).
  destruct (step_effect u ev sys Hact Hpool) as (Heff & Hact' & Hpool').
  eapply effect_inv; eauto.
Qed.

Lemma steps_inv (u : Uri) (evs : list Event) :
  forall sys, editor_inv sys -> editor_inv (steps (document u) evs sys).
Proof.
  induction evs as [| ev evs IH]; intros sys Hinv; [exact Hinv |].
  apply IH, step_inv, Hinv.
Qed.

Lemma opened_inv (u : Uri) (initialContent : list byte) (s : Store) :
  editor_inv (opened u initialContent s).
Proof.
  unfold editor_inv, opened, valid_refs, savedEdits_value. cbn -[lookup_total].
  rewrite !length_app. cbn [length]. repeat split; try lia.
  - now rewrite list_lookup_total_middle by (rewrite length_app; cbn; lia).
  - apply Forall_nil_2.
  - apply Forall_nil_2.
Qed.

Lemma reachable_inv (u : Uri) (initialContent : list byte) (s : Store) (evs : list Event) :
  editor_inv (steps (document u) evs (opened u initialContent s)).
Proof. apply steps_inv, opened_inv. Qed.

End Reachable.

(** ** Saving and reverting *)

Section Saved.
Context `{VscodeUri}.

(** C3 (as the code has it). [save] takes its copy of the edit log when
    [saveAs] has returned, also when [saveAs] returned without writing
    because cancellation was requested. So in every state the editor can
    reach, as long as no [revert] has returned since the last [save]
    returned (or since the document was made), the contents of
    [_savedEdits] are the edit log as it was when the most recent [save]
    returned (the empty log before the first one); and an event in which
    no [save] returns leaves those contents as they are. *)
Theorem C3_savedEdits_is_log_at_last_returned_save
    (u : Uri) (initialContent : list byte) (s0 : Store) (evs : list Event) :
  let sys := steps (document u) evs (opened u initialContent s0) in
  reverted_since_save (history sys) = false ->
  savedEdits_value (sys_store sys) = edits_at_last_save (history sys) /\
  forall ev,
    let sys' := step (document u) ev sys in
    filter is_save (history sys') = filter is_save (history sys) ->
    savedEdits_value (sys_store sys') = savedEdits_value (sys_store sys).
Proof.
  intros sys Hrev.
  pose proof (reachable_inv u initialContent s0 evs) as Hinv. fold sys in Hinv.
  pose proof Hinv as (Hvalid & Hsaved & Hact & Hpool).
  destruct (Hsaved Hrev) as [Hne Hval]. split; [exact Hval |].
  intros ev sys' Hf.
  destruct (step_effect u ev sys Hact Hpool) as (Heff & _ & _). fold sys' in Heff.
  destruct Heff as [[_ Hk] | (c & Hh & _ & Hc)].
  - now apply keeps_savedEdits_value.
  - rewrite Hh in Hf. apply no_new_save in Hf. unfold is_save in Hf.
    destruct (done_returned c); [| now apply keeps_savedEdits_value].
    destruct (done_op c); cbn in Hc.
    + discriminate.
    + now apply keeps_savedEdits_value.
    + now apply resets_savedEdits in Hc.
    + now apply keeps_savedEdits_value.
Qed.

(** What [revert] does, in every state the editor can reach. It waits
    for one [readFile] of the uri of the document (an untitled document
    is not read and has no bytes). In the turn in which the read answers,
    whatever came in between, it makes the array of [_savedEdits] the
    edit log, so the log has the contents [_savedEdits] held; when no
    [revert] has returned since the last [save] these are the log of that
    save. It sets [documentData] to the bytes read, and fires one event
    on [_onDidChangeDocument], with those bytes and that log. *)
Lemma revert_takes_savedEdits_and_disk_bytes
    (u : Uri) (initialContent : list byte) (s0 : Store) (evs : list Event)
    (c : CancellationToken) :
  let sys := steps (document u) evs (opened u initialContent s0) in
  let s := sys_store sys in
  let reverted (bytes : list byte) (t : Turn unit) :=
    outcome t = Returned tt /\
    edits_value (store t) = savedEdits_value s /\
    (reverted_since_save (history sys) = false ->
     edits_value (store t) = edits_at_last_save (history sys)) /\
    _documentData (store t) = bytes /\
    changed (store t) =
      changed s ++ [{| content := Some bytes; edits := _edits (store t) |}] in
  if String.eqb (Uri_scheme u) "untitled" then
    reverted [] (run (revert (document u) c) s)
  else
    exists k,
      (forall s_call,
          run (revert (document u) c) s_call =
          {| store := s_call; fired := []; outcome := Suspended (ReadFile u) k |}) /\
      (forall bytes, reverted bytes (run (k (inr bytes)) s)) /\
      (forall e, run (k (inl e)) s = {| store := s; fired := []; outcome := Thrown e |}).
Proof.
  intros sys s reverted.
  pose proof (reachable_inv u initialContent s0 evs) as Hinv. fold sys in Hinv.
  destruct Hinv as (_ & Hsaved & _ & _). fold s in Hsaved.
  assert (Hdone : forall bytes t,
             outcome t = Returned tt ->
             store t = set_changed
                         (fun l => l ++ [{| content := Some bytes; edits := _savedEdits s |}])
                         (set_edits (_savedEdits s) (set_documentData bytes s)) ->
             reverted bytes t).
  { intros bytes t Hout Hstore. subst reverted. cbn beta. rewrite Hstore.
    split; [exact Hout |]. split; [reflexivity |]. split; [| split; reflexivity].
    intros Hrev. destruct (Hsaved Hrev) as [_ Hval]. rewrite <- Hval. reflexivity. }
  unfold revert, readFile. cbn [uri document _uri].
  destruct (String.eqb (Uri_scheme u) "untitled").
  - apply Hdone; reflexivity.
  - eexists. split; [intros s_call; reflexivity |]. split.
    + intros bytes. apply Hdone; reflexivity.
    + intros e. reflexivity.
Qed.

End Saved.

(** ** Laws and the machine *)

Section LawsOfTheMachine.
Context `{VscodeUri}.

Lemma abides_run {A} (L : Law) (post : Store -> Store -> Prop) (p : Prog A) :
  forall (s0 s : Store) (evs : list DidChange),
    abides L post p s0 s ->
    Forall (action_abides L) evs ->
    Forall (action_abides L) (fired (run_from p s evs)) /\
    match outcome (run_from p s evs) with
    | Returned _ => post s0 (store (run_from p s evs))
    | Thrown _ => law_keep L s0 (store (run_from p s evs))
    | Suspended r k =>
      law_keep L s0 (store (run_from p s evs)) /\
      law_request L r /\
      forall a s1, law_inv L s1 -> resumable r a s1 -> abides L post (k a) s1 s1
    end.
Proof.
  induction p as [a | e | k IH | s' k IH | ev k IH | r k IH];
    intros s0 s evs Hp Hevs; cbn in *; auto.
  destruct Hp as [Hev Hp]. apply IH; [exact Hp |].
  apply Forall_app. auto.
Qed.

Section Lawful.
Variable L : Law.
Variable allowed : Message -> Prop.
Hypothesis HL : lawful L allowed.

Lemma law_settle (op : Op) (after : option Request) (p : Prog unit) (sys : Sys) :
  abides L (law_return L op) p (sys_store sys) (sys_store sys) ->
  law_holds L sys ->
  law_effect L sys (settle op after (run p (sys_store sys)) sys) /\
  law_holds L (settle op after (run p (sys_store sys)) sys).
Proof.
  intros Hp (Hinv & Hact & Hpool).
  destruct (abides_run L _ p _ _ [] Hp (Forall_nil_2 _)) as [Hfired Hout].
  fold (run p (sys_store sys)) in Hfired, Hout.
  unfold settle, law_effect, law_holds.
  destruct (outcome (run p (sys_store sys))) as [[] | e | r k]; cbn.
  - split; [right; eexists; split; [reflexivity | exact Hout] |].
    split; [eapply (lawful_return L allowed HL); eauto |].
    split; [apply Forall_app; split; auto | exact Hpool].
  - split; [right; eexists; split; [reflexivity | exact Hout] |].
    split; [eapply (lawful_keep L allowed HL); eauto |].
    split; [apply Forall_app; split; auto | exact Hpool].
  - destruct Hout as (Hk & Hr & Hrest).
    split; [left; auto |].
    split; [eapply (lawful_keep L allowed HL); eauto |].
    split; [apply Forall_app; split; auto |].
    apply Forall_app. split; [exact Hpool |].
    apply Forall_cons. split; [split; assumption | apply Forall_nil_2].
Qed.

Lemma law_turn (p : Prog unit) (sys : Sys) :
  abides L (law_keep L) p (sys_store sys) (sys_store sys) ->
  law_holds L sys ->
  law_effect L sys (turn p sys) /\ law_holds L (turn p sys).
Proof.
  intros Hp (Hinv & Hact & Hpool).
  destruct (abides_run L _ p _ _ [] Hp (Forall_nil_2 _)) as [Hfired Hout].
  fold (run p (sys_store sys)) in Hfired, Hout.
  assert (Hk : law_keep L (sys_store sys) (store (run p (sys_store sys)))).
  { destruct (outcome (run p (sys_store sys))); tauto. }
  unfold turn, law_effect, law_holds. cbn.
  split; [left; auto |].
  split; [eapply (lawful_keep L allowed HL); eauto |].
  split; [apply Forall_app; split; auto | exact Hpool].
Qed.

Lemma law_with_store (f : Store -> Store) (sys : Sys) :
  law_keep L (sys_store sys) (f (sys_store sys)) ->
  law_holds L sys ->
  law_effect L sys (with_store f sys) /\ law_holds L (with_store f sys).
Proof.
  intros Hk (Hinv & Hact & Hpool). unfold law_effect, law_holds. cbn.
  split; [left; auto |].
  split; [eapply (lawful_keep L allowed HL); eauto | auto].
Qed.

Lemma law_idle (sys : Sys) :
  law_holds L sys -> law_effect L sys sys /\ law_holds L sys.
Proof.
  intros Hh. split; [| exact Hh]. left. split; [reflexivity |].
  apply (lawful_refl L allowed HL).
Qed.

Lemma law_step (u : Uri) (ev : Event) (sys : Sys) :
  law_holds L sys ->
  event_with allowed ev ->
  law_effect L sys (step (document u) ev sys) /\
  law_holds L (step (document u) ev sys).
Proof.
  intros Hh Hev. pose proof Hh as (Hinv & Hact & Hpool).
  destruct ev as [panel | other panel | panel | panel | panel e | n | n | op | c | n reply];
    cbn [step].
  - apply law_turn; auto. apply (lawful_resolve L allowed HL).
  - apply law_turn; auto. apply (lawful_resolve L allowed HL).
  - apply law_turn; auto. apply (lawful_request L allowed HL).
  - apply law_turn; auto. apply (lawful_dispose L allowed HL).
  - apply law_turn; auto. apply (lawful_message L allowed HL). exact Hev.
  - destruct (emitted sys !! n) as [ev |] eqn:Hn; [| apply law_idle; exact Hh].
    apply law_with_store; auto. apply (Forall_lookup_1 _ _ _ _ Hact Hn).
  - destruct (emitted sys !! n) as [ev |] eqn:Hn; [| apply law_idle; exact Hh].
    apply law_with_store; auto. apply (Forall_lookup_1 _ _ _ _ Hact Hn).
  - apply law_settle; auto. apply (lawful_call L allowed HL).
  - apply law_with_store; auto. apply (lawful_cancel L allowed HL).
  - destruct (pool sys !! n) as [task |] eqn:Hn; [| apply law_idle; exact Hh].
    destruct (answer_of (task_request task) reply (sys_store sys)) as [a |] eqn:Ha;
      [| apply law_idle; exact Hh].
    destruct (Forall_lookup_1 _ _ _ _ Hpool Hn) as [_ Htask].
    apply (law_settle (task_op task) (Some (task_request task)) (task_resume task a)
             {| sys_store := sys_store sys; emitted := emitted sys;
                pool := delete n (pool sys); history := history sys |}); cbn.
    + apply Htask; [exact Hinv |]. exists reply. exact Ha.
    + split; [exact Hinv |]. split; [exact Hact |]. apply Forall_delete. exact Hpool.
Qed.

Lemma law_steps (u : Uri) (evs : list Event) :
  forall sys,
    law_holds L sys ->
    Forall (event_with allowed) evs ->
    law_holds L (steps (document u) evs sys).
Proof.
  induction evs as [| ev evs IH]; intros sys Hh Hevs; [exact Hh |].
  apply Forall_cons in Hevs as [Hev Hevs].
  apply IH; [| exact Hevs]. apply law_step; assumption.
Qed.

Lemma law_opened (u : Uri) (initialContent : list byte) (s : Store) :
  law_inv L (sys_store (opened u initialContent s)) ->
  law_holds L (opened u initialContent s).
Proof. intros Hinv. split; [exact Hinv |]. split; apply Forall_nil_2. Qed.

End Lawful.

End LawsOfTheMachine.

(** ** The programs of the machine abide by the laws *)

Section LawfulPrograms.
Context `{VscodeUri}.

(** Walk through the turns of a program: run it as far as it goes and
    split on what it tests. *)
Ltac walk :=
  repeat first
    [ progress cbn -[lookup insert omap]
    | match goal with
      | |- _ /\ _ => split
      | |- action_abides _ _ => unfold action_abides, exec, run
      | |- forall _, _ => intro
      | |- context [if isCancellationRequested ?c ?s then _ else _] =>
        destruct (isCancellationRequested c s)
      | |- context [if String.eqb ?a ?b then _ else _] =>
        destruct (String.eqb a b) eqn:?
      | |- context [match WebviewCollection_get ?u ?s with _ => _ end] =>
        destruct (WebviewCollection_get u s) as [| ? ?]
      | |- context [requestId ?e ≫= _] => destruct (requestId e) as [? |]
      | |- context [match _callbacks ?s !! ?n with _ => _ end] =>
        destruct (_callbacks s !! n) eqn:?
      | |- context [match ?a with inl _ => _ | inr _ => _ end] => destruct a as [? | ?]
      end ].

Ltac programs :=
  constructor;
  [ | | | |
    intros this panel s; unfold resolveCustomEditor
  | intros panel s
  | intros panel s
  | intros this panel e s Hallowed; unfold onDidReceiveMessage, onMessage, onReady
  | intros u [c | d c | c | d c] s; cbn [call law_return];
    [ unfold saveCustomDocument, save, saveAs
    | unfold saveCustomDocumentAs, saveAs
    | unfold revertCustomDocument, revert, readFile
    | unfold backupCustomDocument, backup, saveAs ];
    cbn -[lookup insert omap]; unfold provider_getFileData ];
  walk.

Lemma documentData_lawful : lawful documentData_law (fun _ => True).
Proof. programs; first [exact I | congruence]. Qed.

Lemma resolve_keeps_settled (ps : list (option (list Z))) (q p : nat) (w v : list Z) :
  ps !! p = Some (Some v) ->
  match ps !! q with
  | Some None => <[q := Some w]> ps
  | _ => ps
  end !! p = Some (Some v).
Proof.
  intros Hp. destruct (ps !! q) as [[u |] |] eqn:Hq; try exact Hp.
  destruct (decide (q = p)) as [-> | Hne]; [congruence |].
  now rewrite list_lookup_insert_ne.
Qed.

Lemma settled_lawful : lawful settled_law (fun _ => True).
Proof.
  programs;
    first [ exact I | assumption | apply lookup_app_l_Some; assumption
          | apply resolve_keeps_settled; assumption ].
Qed.

Lemma bridge_ok_same (s s' : Store) :
  posted s' = posted s -> _requestId s' = _requestId s -> _callbacks s' = _callbacks s ->
  bridge_ok s -> bridge_ok s'.
Proof. unfold bridge_ok, posted_ids. intros -> -> ->. auto. Qed.

Lemma bridge_ok_post (s s' : Store) (m : Posted) :
  posted s' = posted s ++ [m] -> posted_requestId m = None ->
  _requestId s' = _requestId s -> _callbacks s' = _callbacks s ->
  bridge_ok s -> bridge_ok s'.
Proof.
  unfold bridge_ok, posted_ids. intros -> Hm -> ->.
  rewrite omap_app. cbn. rewrite Hm, app_nil_r. auto.
Qed.

Lemma bridge_ok_request (s s' : Store) (m : Posted) (p : nat) :
  posted s' = posted s ++ [m] -> posted_requestId m = Some (_requestId s) ->
  _requestId s' = number_succ (_requestId s) ->
  _callbacks s' = <[_requestId s := p]> (_callbacks s) ->
  bridge_ok s -> bridge_ok s'.
Proof.
  unfold bridge_ok, posted_ids. intros -> Hm -> -> Hok Hlt.
  unfold number_succ in *.
  destruct (N.ltb_spec (_requestId s) (2 ^ 53)) as [Hr | Hr]; [| lia].
  destruct (Hok Hr) as (Hnd & Hids & Hkeys).
  rewrite omap_app. cbn. rewrite Hm.
  split; [| split].
  - apply NoDup_app. split; [exact Hnd |]. split; [| apply NoDup_singleton].
    intros n Hn Hin. apply list_elem_of_singleton in Hin. subst n.
    apply Hids in Hn. lia.
  - intros n Hn. apply elem_of_app in Hn as [Hn | Hn].
    + apply Hids in Hn. lia.
    + apply list_elem_of_singleton in Hn. lia.
  - intros n Hn. destruct (decide (_requestId s = n)) as [<- | Hne]; [lia |].
    rewrite lookup_insert_ne in Hn by exact Hne. apply Hkeys in Hn. lia.
Qed.

Lemma bridge_lawful : lawful bridge_law (fun _ => True).
Proof.
  programs;
    first [ exact I | assumption
          | match goal with
            | Hok : bridge_ok ?s0 |- _ =>
              first
                [ apply (bridge_ok_same s0);
                  [reflexivity | reflexivity | reflexivity | assumption]
                | eapply (bridge_ok_post s0);
                  [reflexivity | reflexivity | reflexivity | reflexivity | assumption]
                | eapply (bridge_ok_request s0);
                  [reflexivity | reflexivity | reflexivity | reflexivity | assumption] ]
            end ].
Qed.

Lemma all_pending_same (s s' : Store) :
  promises s' = promises s -> all_pending s -> all_pending s'.
Proof. unfold all_pending. intros ->. auto. Qed.

Lemma all_pending_new (s s' : Store) :
  promises s' = promises s ++ [None] -> all_pending s -> all_pending s'.
Proof.
  unfold all_pending. intros -> Hs p v Hp.
  apply lookup_app_Some in Hp as [Hp | [_ Hp]]; [now apply Hs in Hp |].
  destruct (p - length (promises s)) as [| i]; cbn in Hp; discriminate.
Qed.

Lemma pending_not_resumable (p : nat) (a : list Z) (s : Store) :
  all_pending s -> resumable (Settled p) a s -> False.
Proof.
  intros Hs [reply Ha]. destruct reply; cbn in Ha; try discriminate.
  destruct (promises s !! p) as [[v |] |] eqn:Hp; cbn in Ha; try discriminate.
  now apply Hs in Hp.
Qed.

Lemma unanswered_lawful : lawful unanswered_law not_a_response.
Proof.
  programs;
    first [ exact I | assumption | tauto
          | match goal with
            | Hs : all_pending ?s1, Hr : resumable (Settled _) _ ?s1 |- _ =>
              exfalso; exact (pending_not_resumable _ _ _ Hs Hr)
            | Hno : not_a_response ?e, Heq : String.eqb (type ?e) "response" = true |- _ =>
              exfalso; apply Hno; apply String.eqb_eq; exact Heq
            | Hs : all_pending ?s0 |- _ =>
              first [ apply (all_pending_same s0); [reflexivity | assumption]
                    | apply (all_pending_new s0); [reflexivity | assumption] ]
            end ].
Qed.

Lemma table_ok_same (s s' : Store) :
  posted s' = posted s -> _callbacks s' = _callbacks s -> table_ok s -> table_ok s'.
Proof. unfold table_ok, posted_ids. intros -> ->. auto. Qed.

Lemma table_ok_post (s s' : Store) (m : Posted) :
  posted s' = posted s ++ [m] -> posted_requestId m = None ->
  _callbacks s' = _callbacks s -> table_ok s -> table_ok s'.
Proof.
  unfold table_ok, posted_ids. intros -> Hm ->.
  rewrite omap_app. cbn. rewrite Hm, app_nil_r. auto.
Qed.

Lemma table_ok_request (s s' : Store) (m : Posted) (p : nat) :
  posted s' = posted s ++ [m] -> posted_requestId m = Some (_requestId s) ->
  _callbacks s' = <[_requestId s := p]> (_callbacks s) ->
  table_ok s -> table_ok s'.
Proof.
  unfold table_ok, posted_ids. intros -> Hm -> Hok n.
  rewrite omap_app. cbn. rewrite Hm, elem_of_app, list_elem_of_singleton, Hok.
  destruct (decide (_requestId s = n)) as [<- | Hne].
  - rewrite lookup_insert_eq. split; eauto.
  - rewrite lookup_insert_ne by exact Hne. split; [intros [? | ?]; congruence | auto].
Qed.

Lemma table_lawful : lawful table_law (fun _ => True).
Proof.
  programs;
    first [ exact I | assumption
          | match goal with
            | Hok : table_ok ?s0 |- _ =>
              first
                [ apply (table_ok_same s0); [reflexivity | reflexivity | assumption]
                | eapply (table_ok_post s0);
                  [reflexivity | reflexivity | reflexivity | assumption]
                | eapply (table_ok_request s0);
                  [reflexivity | reflexivity | reflexivity | assumption] ]
            end ].
Qed.

Lemma posts_ok_same (s s' : Store) : posted s' = posted s -> posts_ok s -> posts_ok s'.
Proof. unfold posts_ok. intros ->. auto. Qed.

Lemma posts_ok_post (s s' : Store) (m : Posted) :
  posted s' = posted s ++ [m] -> host_message m -> posts_ok s -> posts_ok s'.
Proof.
  unfold posts_ok. intros -> Hm Hok. apply Forall_app. split; [exact Hok |].
  apply Forall_cons. split; [exact Hm | apply Forall_nil_2].
Qed.

Lemma posts_lawful : lawful posts_law (fun _ => True).
Proof.
  programs;
    first [ exact I | assumption
          | match goal with
            | Hok : posts_ok ?s0 |- _ =>
              first
                [ apply (posts_ok_same s0); [reflexivity | assumption]
                | eapply (posts_ok_post s0); [reflexivity | | assumption];
                  first [ left; split; reflexivity
                        | right; split; [reflexivity | split; [eexists; reflexivity | reflexivity]] ] ]
            end ].
Qed.

End LawfulPrograms.

(** ** What holds in every state the editor can reach *)

Section Everywhere.
Context `{VscodeUri}.

Lemma any_message (evs : list Event) : Forall (event_with (fun _ => True)) evs.
Proof. apply Forall_forall. intros ev _. destruct ev; exact I. Qed.

(** A property of the store that every turn under a law hands on holds
    after any number of events. *)
Lemma law_hands_on (L : Law) (allowed : Message -> Prop) (P : Store -> Prop)
    (u : Uri) :
  lawful L allowed ->
  (forall s s', law_keep L s s' -> P s -> P s') ->
  (forall op s s', law_return L op s s' -> P s -> P s') ->
  forall evs sys,
    law_holds L sys ->
    Forall (event_with allowed) evs ->
    P (sys_store sys) ->
    P (sys_store (steps (document u) evs sys)).
Proof.
  intros HL Hkeep Hret evs.
  induction evs as [| ev evs IH]; intros sys Hh Hevs HP; [exact HP |].
  apply Forall_cons in Hevs as [Hev Hevs].
  destruct (law_step L allowed HL u ev sys Hh Hev) as [Heff Hh'].
  apply IH; [exact Hh' | exact Hevs |].
  destruct Heff as [[_ Hk] | (c & _ & Hc)]; [eauto |].
  destruct (done_returned c); eauto.
Qed.

(** A property of the calls that returned. *)
Lemma law_of_history (L : Law) (allowed : Message -> Prop) (Q : Op -> Prop)
    (u : Uri) :
  lawful L allowed ->
  (forall op s s', law_return L op s s' -> Q op) ->
  forall evs sys,
    law_holds L sys ->
    Forall (event_with allowed) evs ->
    Forall (fun c => done_returned c = true -> Q (done_op c)) (history sys) ->
    Forall (fun c => done_returned c = true -> Q (done_op c))
           (history (steps (document u) evs sys)).
Proof.
  intros HL HQ evs.
  induction evs as [| ev evs IH]; intros sys Hh Hevs Hhist; [exact Hhist |].
  apply Forall_cons in Hevs as [Hev Hevs].
  destruct (law_step L allowed HL u ev sys Hh Hev) as [Heff Hh'].
  apply IH; [exact Hh' | exact Hevs |].
  destruct Heff as [[-> _] | (c & -> & Hc)]; [exact Hhist |].
  apply Forall_app. split; [exact Hhist |].
  apply Forall_cons. split; [| apply Forall_nil_2].
  intros Hret. rewrite Hret in Hc. eauto.
Qed.

(** Once a promise is settled, no later event changes its value: a
    caller is resumed with the payload of the first response, whatever
    responses follow. *)
Theorem settled_promise_keeps_its_value
    (u : Uri) (initialContent : list byte) (s0 : Store) (evs evs' : list Event)
    (p : nat) (v : list Z) :
  let sys := steps (document u) evs (opened u initialContent s0) in
  promises (sys_store sys) !! p = Some (Some v) ->
  promises (sys_store (steps (document u) evs' sys)) !! p = Some (Some v).
Proof.
  intros sys Hp.
  apply (law_hands_on settled_law (fun _ => True)
           (fun s => promises s !! p = Some (Some v)) u settled_lawful).
  - intros s s' Hk. apply Hk.
  - intros op s s' Hk. apply Hk.
  - apply (law_steps settled_law _ settled_lawful); [| apply any_message].
    apply law_opened. exact I.
  - apply any_message.
  - exact Hp.
Qed.

Lemma opened_keeps_provider (u : Uri) (initialContent : list byte) (s : Store) :
  posted (sys_store (opened u initialContent s)) = posted s /\
  _requestId (sys_store (opened u initialContent s)) = _requestId s /\
  _callbacks (sys_store (opened u initialContent s)) = _callbacks s /\
  promises (sys_store (opened u initialContent s)) = promises s /\
  _webviews (sys_store (opened u initialContent s)) = _webviews s.
Proof. repeat split; reflexivity. Qed.

(** As long as [_requestId] is below 2^53, the ids of all requests
    posted so far are pairwise distinct and below [_requestId], and so
    are the keys of [_callbacks]: the next request takes an id that is
    not in the table, so no resolver is overwritten. *)
Theorem request_ids_are_fresh
    (u : Uri) (initialContent : list byte) (s0 : Store) (evs : list Event) :
  bridge_ok s0 ->
  let s := sys_store (steps (document u) evs (opened u initialContent s0)) in
  (_requestId s < 2 ^ 53)%N ->
  NoDup (posted_ids s) /\
  (forall n, n ∈ posted_ids s -> (n < _requestId s)%N) /\
  (forall n, is_Some (_callbacks s !! n) -> (n < _requestId s)%N) /\
  _callbacks s !! _requestId s = None.
Proof.
  intros H0 s Hlt.
  assert (Hok : bridge_ok s).
  { apply (law_hands_on bridge_law (fun _ => True) bridge_ok u bridge_lawful).
    - intros ? ? Hk. exact Hk.
    - intros ? ? ? Hk. exact Hk.
    - apply law_opened. exact I.
    - apply any_message.
    - destruct (opened_keeps_provider u initialContent s0) as (Hp & Hr & Hc & _).
      apply (bridge_ok_same s0); assumption. }
  destruct (Hok Hlt) as (Hnd & Hids & Hkeys).
  split; [exact Hnd |]. split; [exact Hids |]. split; [exact Hkeys |].
  destruct (_callbacks s !! _requestId s) as [q |] eqn:Hq; [| reflexivity].
  assert (Hsome : is_Some (_callbacks s !! _requestId s)) by (rewrite Hq; eauto).
  apply Hkeys in Hsome. lia.
Qed.

(** No entry of [_callbacks] is ever removed: in every state, the
    requests that have an entry in the table are exactly the requests
    posted so far. *)
Theorem callbacks_hold_every_request
    (u : Uri) (initialContent : list byte) (s0 : Store) (evs : list Event) :
  table_ok s0 ->
  let s := sys_store (steps (document u) evs (opened u initialContent s0)) in
  forall n, n ∈ posted_ids s <-> is_Some (_callbacks s !! n).
Proof.
  intros H0 s.
  apply (law_hands_on table_law (fun _ => True) table_ok u table_lawful).
  - intros ? ? Hk. exact Hk.
  - intros ? ? ? Hk. exact Hk.
  - apply law_opened. exact I.
  - apply any_message.
  - destruct (opened_keeps_provider u initialContent s0) as (Hp & _ & Hc & _).
    apply (table_ok_same s0); assumption.
Qed.

(** The host posts two kinds of message and no other: 'init', in answer
    to 'ready', and the request 'getFileData' of a save or a backup.
    Strokes, undo, redo and revert are never passed on to a panel. *)
Theorem host_posts_init_and_getFileData_only
    (u : Uri) (initialContent : list byte) (s0 : Store) (evs : list Event) :
  Forall host_message (posted s0) ->
  Forall host_message
         (posted (sys_store (steps (document u) evs (opened u initialContent s0)))).
Proof.
  intros H0.
  apply (law_hands_on posts_law (fun _ => True) posts_ok u posts_lawful).
  - intros ? ? Hk. exact Hk.
  - intros ? ? ? Hk. exact Hk.
  - apply law_opened. exact I.
  - apply any_message.
  - destruct (opened_keeps_provider u initialContent s0) as (Hp & _).
    apply (posts_ok_same s0); assumption.
Qed.

Lemma no_new_revert (h : list Completion) (c : Completion) :
  filter is_revert (h ++ [c]) = filter is_revert h -> is_revert c = false.
Proof.
  intros Hf. destruct (is_revert c) eqn:Hc; [| reflexivity].
  rewrite filter_app, filter_cons_True in Hf by (now rewrite Hc).
  apply (f_equal length) in Hf. rewrite length_app in Hf. cbn in Hf. lia.
Qed.

(** [documentData] changes in no turn but the one in which a [revert]
    returns: strokes, undo, redo, [save], [saveAs] and [backup] leave it
    as it is, also when they write the file. *)
Theorem only_revert_changes_documentData
    (u : Uri) (initialContent : list byte) (s0 : Store) (evs : list Event) (ev : Event) :
  let sys := steps (document u) evs (opened u initialContent s0) in
  let sys' := step (document u) ev sys in
  filter is_revert (history sys') = filter is_revert (history sys) ->
  _documentData (sys_store sys') = _documentData (sys_store sys).
Proof.
  intros sys sys' Hf.
  assert (Hh : law_holds documentData_law sys).
  { apply (law_steps documentData_law _ documentData_lawful); [| apply any_message].
    apply law_opened. exact I. }
  assert (Hev : event_with (fun _ : Message => True) ev) by (destruct ev; exact I).
  destruct (law_step documentData_law _ documentData_lawful u ev sys Hh Hev)
    as [Heff _].
  fold sys' in Heff.
  destruct Heff as [[_ Hk] | (c & Hh' & Hc)]; [exact Hk |].
  rewrite Hh' in Hf. apply no_new_revert in Hf. unfold is_revert in Hf.
  destruct (done_returned c); [| exact Hc].
  destruct (done_op c); cbn in Hc; try exact Hc. discriminate.
Qed.

Lemma panel_run_sent (ms : list Posted) : panel_sent (panel_run ms) = [ready_message].
Proof.
  unfold panel_run.
  assert (Hgen : forall p, panel_sent (fold_left (fun p m => panel_onMessage m p) ms p) =
                           panel_sent p).
  { induction ms as [| m ms IH]; intros p; [reflexivity |].
    cbn [fold_left]. rewrite IH. unfold panel_onMessage.
    destruct (String.eqb (posted_type m) "init"); reflexivity. }
  rewrite Hgen. reflexivity.
Qed.

Lemma from_panel_script_ready (e : Message) : from_panel_script e -> e = ready_message.
Proof.
  intros [ms He]. rewrite panel_run_sent in He.
  now apply list_elem_of_singleton in He.
Qed.

Lemma scripted_events (evs : list Event) :
  Forall (event_with from_panel_script) evs ->
  Forall (event_with not_a_response) evs.
Proof.
  intros Hall. eapply Forall_impl; [exact Hall |].
  intros [] Hev; try exact I. cbn in *.
  apply from_panel_script_ready in Hev. subst e. unfold not_a_response. cbn.
  discriminate.
Qed.

(** With the panel script as it is, nothing is ever saved. The script
    never answers a 'getFileData' request, so no promise of the bridge
    is settled; hence, whatever the host does, no [save], [saveAs] or
    [backup] ever comes to its [writeFile] and none ever returns: each
    throws at once for want of a panel or waits for ever. *)
Theorem save_never_writes_with_this_panel
    (u : Uri) (initialContent : list byte) (s0 : Store) (evs : list Event) :
  all_pending s0 ->
  Forall (event_with from_panel_script) evs ->
  let sys := steps (document u) evs (opened u initialContent s0) in
  all_pending (sys_store sys) /\
  Forall waits_for_no_write (pool sys) /\
  Forall returned_only_revert (history sys).
Proof.
  intros H0 Hevs sys. apply scripted_events in Hevs.
  assert (Hopen : law_holds unanswered_law (opened u initialContent s0)).
  { apply law_opened.
    destruct (opened_keeps_provider u initialContent s0) as (_ & _ & _ & Hp & _).
    apply (all_pending_same s0); assumption. }
  assert (Hh : law_holds unanswered_law sys).
  { apply (law_steps unanswered_law _ unanswered_lawful); assumption. }
  destruct Hh as (Hinv & _ & Hpool).
  split; [exact Hinv |]. split.
  - eapply Forall_impl; [exact Hpool |]. intros task [Hreq _]. exact Hreq.
  - apply (law_of_history unanswered_law not_a_response
             (fun op => exists cancellation, op = OpRevert cancellation)
             u unanswered_lawful); try assumption; [| apply Forall_nil_2].
    intros op s s' [Hop _]. destruct op; try contradiction. eauto.
Qed.

End Everywhere.

(** ** The registry, the panel and the calls, turn by turn *)

Section MoreFacts.
Context `{VscodeUri}.

(** *** [WebviewCollection] *)

(** After [add(uri, panel)], [get] yields the panel last among the
    panels of that resource, once more if it was there already, and
    yields for every other resource what it yielded before. *)
Theorem get_after_add (uri uri' : Uri) (panel : WebviewPanel) (s : Store) :
  WebviewCollection_get uri' (exec (WebviewCollection_add uri panel) s) =
  if decide (Uri_toString uri = Uri_toString uri')
  then WebviewCollection_get uri' s ++ [panel]
  else WebviewCollection_get uri' s.
Proof.
  unfold WebviewCollection_get. cbn. rewrite filter_app, map_app.
  destruct (decide (Uri_toString uri = Uri_toString uri')) as [Heq | Hne].
  - rewrite filter_cons_True by exact Heq. reflexivity.
  - rewrite filter_cons_False by exact Hne. cbn. apply app_nil_r.
Qed.

Lemma get_of_filtered (uri : Uri) (panel : WebviewPanel) (l : list WebviewEntry) :
  map webviewPanel
      (filter (fun entry => resource entry = Uri_toString uri)
              (filter (fun entry => webviewPanel entry <> panel) l)) =
  filter (fun q => q <> panel)
         (map webviewPanel (filter (fun entry => resource entry = Uri_toString uri) l)).
Proof.
  induction l as [| entry l IH]; [reflexivity |].
  destruct (decide (webviewPanel entry = panel)) as [Hp | Hp];
    destruct (decide (resource entry = Uri_toString uri)) as [Hr | Hr].
  - rewrite (filter_cons_False _ _ l) by tauto.
    rewrite (filter_cons_True _ _ l) by exact Hr. cbn [map].
    rewrite filter_cons_False by tauto. exact IH.
  - rewrite (filter_cons_False _ _ l) by tauto.
    rewrite (filter_cons_False _ _ l) by exact Hr. exact IH.
  - rewrite (filter_cons_True _ _ l) by exact Hp.
    rewrite !filter_cons_True by assumption. cbn [map].
    rewrite filter_cons_True by exact Hp. now rewrite IH.
  - rewrite (filter_cons_True _ _ l) by exact Hp.
    rewrite !filter_cons_False by assumption. exact IH.
Qed.

(** When a panel is disposed, [get] yields for every resource the panels
    it yielded before, in the same order, without that panel: all its
    entries are gone, and no other entry is. *)
Theorem get_after_dispose (uri : Uri) (panel : WebviewPanel) (s : Store) :
  WebviewCollection_get uri (exec (WebviewCollection_onDidDispose panel) s) =
  filter (fun q => q <> panel) (WebviewCollection_get uri s).
Proof. unfold WebviewCollection_get. cbn. apply get_of_filtered. Qed.

(** Once the last panel of a document is disposed, [save] fails at once
    with 'Could not find webview to save for': it posts nothing, writes
    nothing and leaves [savedEdits] and the rest of the store alone. *)
Theorem save_fails_when_last_panel_closed
    (u : Uri) (panel : WebviewPanel) (c : CancellationToken) (s : Store) :
  Forall (fun q => q = panel) (WebviewCollection_get u s) ->
  let s' := exec (WebviewCollection_onDidDispose panel) s in
  run (save (document u) c) s' =
  {| store := s'; fired := [];
     outcome := Thrown (JsError "Could not find webview to save for") |}.
Proof.
  intros Hall s'.
  assert (Hget : WebviewCollection_get u s' = []).
  { subst s'. unfold WebviewCollection_get in *. cbn. rewrite get_of_filtered.
    induction Hall as [| q l Hq _ IH]; [reflexivity |].
    rewrite filter_cons_False; [exact IH | tauto]. }
  clearbody s'. unfold save, saveAs. cbn. unfold provider_getFileData. cbn.
  rewrite Hget. reflexivity.
Qed.

(** *** The panel script *)

(** Whatever the host posts to it, the panel script sends one message
    in all, 'ready': no 'response' to a 'getFileData' request and no
    'stroke'. For each 'init' it calls [JS9.Load] with the [value] of the
    body as it came; it never calls [loadFits]. *)
Theorem panel_script_run (ms : list Posted) :
  panel_sent (panel_run ms) = [ready_message] /\
  js9_loaded (panel_run ms) =
    map (fun m => LoadValue (body_value (posted_body m)))
        (filter (fun m => posted_type m = "init") ms).
Proof.
  split; [apply panel_run_sent |].
  unfold panel_run.
  assert (Hgen : forall p,
             js9_loaded (fold_left (fun p m => panel_onMessage m p) ms p) =
             js9_loaded p ++
             map (fun m => LoadValue (body_value (posted_body m)))
                 (filter (fun m => posted_type m = "init") ms)).
  { induction ms as [| m ms IH]; intros p; [cbn; now rewrite app_nil_r |].
    cbn [fold_left]. rewrite IH. unfold panel_onMessage.
    destruct (String.eqb_spec (posted_type m) "init") as [Hinit | Hinit].
    - rewrite filter_cons_True by exact Hinit. cbn. now rewrite <- app_assoc.
    - rewrite filter_cons_False by exact Hinit. reflexivity. }
  rewrite Hgen. reflexivity.
Qed.

(** When a panel says 'ready', the provider posts one 'init' message to
    that panel and changes nothing else; on it the panel calls [JS9.Load]
    with the text [blob documentData], not with bytes, and with no value
    at all when the document is untitled. *)
Theorem ready_is_answered_by_init
    (this : FitsFile) (panel : WebviewPanel) (s : Store) (p : PanelState) :
  let t := run (onDidReceiveMessage this panel ready_message) s in
  exists m,
    store t = set_posted (fun l => l ++ [m]) s /\
    fired t = [] /\ outcome t = Returned tt /\
    posted_to m = panel /\ posted_type m = "init" /\ posted_requestId m = None /\
    panel_onMessage m p =
    {| js9_loaded :=
         js9_loaded p ++
         [LoadValue (if String.eqb (Uri_scheme (uri this)) "untitled" then None
                     else Some (Utf8.blob (documentData s)))];
       panel_sent := panel_sent p |}.
Proof.
  intros t. subst t. unfold onDidReceiveMessage, onMessage, onReady. cbn.
  destruct (String.eqb (Uri_scheme (uri this)) "untitled"); cbn;
    eexists; repeat split.
Qed.

(** *** Messages *)

(** A message that is neither a stroke nor 'ready', and a 'response'
    whose id is missing or not in [_callbacks], change nothing and fire
    nothing. *)
Theorem stray_message_is_ignored
    (this : FitsFile) (panel : WebviewPanel) (e : Message) (s : Store) :
  type e <> "stroke" ->
  type e <> "ready" ->
  (type e = "response" -> (requestId e ≫= fun n => _callbacks s !! n) = None) ->
  run (onDidReceiveMessage this panel e) s =
  {| store := s; fired := []; outcome := Returned tt |}.
Proof.
  intros Hstroke Hready Hresp.
  unfold onDidReceiveMessage, onMessage, onReady.
  destruct (String.eqb_spec (type e) "stroke") as [? | _]; [contradiction |].
  destruct (String.eqb_spec (type e) "ready") as [? | _]; [contradiction |].
  destruct (String.eqb_spec (type e) "response") as [Hr | _]; cbn.
  - rewrite (Hresp Hr). reflexivity.
  - reflexivity.
Qed.







End MoreFacts.

(** ** [save], [backup] and opening, turn by turn *)

Section Calls.
Context `{VscodeUri}.

(** The numbers of a response are taken modulo 256: the numbers of any
    bytes give back those bytes, and a number and the same number plus
    256 give the same byte. *)
Theorem response_numbers_to_bytes (B : list byte) (numbers : list Z) :
  Uint8Array_from (map (fun b => Z.of_N (Byte.to_N b)) B) = B /\
  Uint8Array_from (map (fun z => (z + 256)%Z) numbers) = Uint8Array_from numbers.
Proof.
  unfold Uint8Array_from. split.
  - induction B as [| b B IH]; [reflexivity |].
    cbn [map]. rewrite IH. f_equal.
    pose proof (Byte.to_N_bounded b) as Hb.
    rewrite Z.mod_small by lia. rewrite N2Z.id. apply byte_of_to_N.
  - rewrite map_map. apply map_ext. intros z.
    replace (z + 256)%Z with (z + 1 * 256)%Z by lia.
    now rewrite Z_mod_plus_full.
Qed.

(** [save] with a panel, turn by turn. It asks the first panel and
    waits. When the response comes and cancellation is not requested, it
    waits for one [writeFile] of the numbers of the response, as bytes,
    to the uri of the document itself. If that write fails, [save]
    throws the error of the write and the store, [savedEdits] with it,
    is as it was. If it succeeds, [savedEdits] becomes a new array with
    the edit log as it is when the write answers: strokes that came in
    while the write was under way are in it. *)
Theorem save_turn_by_turn
    (u : Uri) (c : CancellationToken) (s : Store)
    (panel : WebviewPanel) (others : list WebviewPanel) :
  WebviewCollection_get u s = panel :: others ->
  exists k,
    outcome (run (save (document u) c) s) = Suspended (Settled (length (promises s))) k /\
    forall response s1,
      isCancellationRequested c s1 = false ->
      exists k',
        run (k response) s1 =
        {| store := s1; fired := [];
           outcome := Suspended (WriteFile u (Uint8Array_from response)) k' |} /\
        (forall e s2,
            run (k' (inl e)) s2 = {| store := s2; fired := []; outcome := Thrown e |}) /\
        (forall s2,
            _edits s2 < length (arrays s2) ->
            outcome (run (k' (inr tt)) s2) = Returned tt /\
            fired (run (k' (inr tt)) s2) = [] /\
            savedEdits_value (store (run (k' (inr tt)) s2)) = edits_value s2 /\
            edits_value (store (run (k' (inr tt)) s2)) = edits_value s2 /\
            _savedEdits (store (run (k' (inr tt)) s2)) <> _edits (store (run (k' (inr tt)) s2)) /\
            _documentData (store (run (k' (inr tt)) s2)) = _documentData s2).
Proof.
  intros Hget. unfold save, saveAs. cbn. unfold provider_getFileData. cbn.
  rewrite Hget. cbn. eexists. split; [reflexivity |].
  intros response s1 Hc. cbn. rewrite Hc. cbn.
  eexists. split; [reflexivity |]. split; [reflexivity |].
  intros s2 Hvalid. cbn -[lookup_total].
  unfold savedEdits_value, edits_value. cbn -[lookup_total].
  split; [reflexivity |]. split; [reflexivity |]. split; [| split; [| split]].
  - now rewrite list_lookup_total_middle.
  - now rewrite lookup_total_app_l.
  - lia.
  - reflexivity.
Qed.

(** [backup] with a panel, turn by turn. It asks the first panel and
    waits; after that it never changes the store. If cancellation is
    requested when the response comes, it returns a backup with the id
    of the destination though nothing was written there. Otherwise it
    waits for one [writeFile] of the bytes to the destination, throws if
    that fails and returns the backup if it succeeds. The [delete] of
    the backup waits for one [delete] of the destination and returns
    whether that succeeded or failed: it never throws. *)
Theorem backup_turn_by_turn
    (u destination : Uri) (c : CancellationToken) (s : Store)
    (panel : WebviewPanel) (others : list WebviewPanel) :
  WebviewCollection_get u s = panel :: others ->
  let made (t : Turn CustomDocumentBackup) (x : Store) :=
    store t = x /\ fired t = [] /\
    exists b kd,
      outcome t = Returned b /\
      backup_id b = Uri_toString destination /\
      (forall y, run (backup_delete b) y =
                 {| store := y; fired := []; outcome := Suspended (Delete destination) kd |}) /\
      (forall a y, run (kd a) y = {| store := y; fired := []; outcome := Returned tt |}) in
  exists k,
    outcome (run (backup (document u) destination c) s) =
      Suspended (Settled (length (promises s))) k /\
    forall response s1,
      (isCancellationRequested c s1 = true -> made (run (k response) s1) s1) /\
      (isCancellationRequested c s1 = false ->
       exists k',
         run (k response) s1 =
         {| store := s1; fired := [];
            outcome := Suspended (WriteFile destination (Uint8Array_from response)) k' |} /\
         (forall e s2,
             run (k' (inl e)) s2 = {| store := s2; fired := []; outcome := Thrown e |}) /\
         (forall s2, made (run (k' (inr tt)) s2) s2)).
Proof.
  intros Hget made. unfold backup, saveAs. cbn. unfold provider_getFileData. cbn.
  rewrite Hget. cbn. eexists. split; [reflexivity |].
  intros response s1. split; intros Hc; cbn; rewrite Hc; cbn.
  - subst made. cbn. split; [reflexivity |]. split; [reflexivity |].
    eexists _, _. split; [reflexivity |]. split; [reflexivity |].
    split; [intros y; reflexivity | intros [e | []] y; reflexivity].
  - eexists. split; [reflexivity |]. split; [reflexivity |].
    intros s2. subst made. cbn. split; [reflexivity |]. split; [reflexivity |].
    eexists _, _. split; [reflexivity |]. split; [reflexivity |].
    split; [intros y; reflexivity | intros [e | []] y; reflexivity].
Qed.

(** What [openCustomDocument] returns is the document the other
    properties are about, [document uri], in the store [opened]: it
    keeps the uri it was asked for also when it is read from a backup,
    its edit log and its [savedEdits] are two different empty arrays,
    whatever was read, and what the provider holds is untouched. *)
Theorem openCustomDocument_opens_a_clean_document
    (uri : Uri) (backupId : option string) (s : Store) :
  let called := run (openCustomDocument uri backupId) s in
  let clean (data : list byte) (t : Turn FitsFile) (x : Store) :=
    t = {| store := sys_store (opened uri data x); fired := [];
           outcome := Returned (document uri) |} /\
    _documentData (store t) = data /\
    edits_value (store t) = [] /\ savedEdits_value (store t) = [] /\
    _edits (store t) <> _savedEdits (store t) /\
    changed (store t) = changed x /\ posted (store t) = posted x /\
    _webviews (store t) = _webviews x /\ _callbacks (store t) = _callbacks x in
  match (match backupId with Some id => Uri_parse id | None => inr uri end) with
  | inl e => outcome called = Thrown e
  | inr dataFile =>
    if String.eqb (Uri_scheme dataFile) "untitled" then clean [] called s
    else
      exists k,
        outcome called = Suspended (ReadFile dataFile) k /\
        forall data s', clean data (run (k (inr data)) s') s'
  end.
Proof.
  intros called clean.
  assert (Hclean : forall data x,
             clean data {| store := sys_store (opened uri data x); fired := [];
                           outcome := Returned (document uri) |} x).
  { intros data x. subst clean. cbn -[lookup_total].
    unfold edits_value, savedEdits_value. cbn -[lookup_total].
    split; [reflexivity |]. split; [reflexivity |]. split; [| split; [| split]].
    - rewrite lookup_total_app_l by (rewrite length_app; cbn; lia).
      now rewrite list_lookup_total_middle.
    - rewrite list_lookup_total_middle; [reflexivity |].
      now rewrite length_app.
    - rewrite length_app. cbn. lia.
    - repeat split; reflexivity. }
  subst called. unfold openCustomDocument, create.
  destruct backupId as [id |].
  - destruct (Uri_parse id) as [e | dataFile]; [reflexivity |].
    cbn. unfold readFile.
    destruct (String.eqb (Uri_scheme dataFile) "untitled"); cbn.
    + apply Hclean.
    + eexists. split; [reflexivity |]. intros data s'. apply Hclean.
  - cbn. unfold readFile.
    destruct (String.eqb (Uri_scheme uri) "untitled"); cbn.
    + apply Hclean.
    + eexists. split; [reflexivity |]. intros data s'. apply Hclean.
Qed.

End Calls.

(** ** The code units of the decoder *)

Section Utf8Range.
Import Utf8.
Local Open Scope N_scope.

Lemma lor_lt_pow2 (a b n : N) : a < 2 ^ n -> b < 2 ^ n -> N.lor a b < 2 ^ n.
Proof.
  intros Ha Hb.
  destruct (N.eq_dec (N.lor a b) 0) as [-> | Hne]; [lia |].
  apply N.log2_lt_pow2; [lia |]. rewrite N.log2_lor.
  destruct (N.eq_dec a 0) as [-> | Ha0]; destruct (N.eq_dec b 0) as [-> | Hb0].
  - now rewrite N.lor_0_l in Hne.
  - rewrite N.max_r by apply N.le_0_l. apply N.log2_lt_pow2; lia.
  - rewrite N.max_l by apply N.le_0_l. apply N.log2_lt_pow2; lia.
  - apply N.max_lub_lt; apply N.log2_lt_pow2; lia.
Qed.

Lemma land_lt_ones (a k : N) : N.land a (N.ones k) < 2 ^ k.
Proof. rewrite N.land_ones. apply N.mod_lt. apply N.pow_nonzero. lia. Qed.

Lemma continue_lt (cp b k : N) :
  cp < 2 ^ k -> N.lor (N.shiftl cp 6) (N.land b 0x3F) < 2 ^ (k + 6).
Proof.
  intros Hcp. apply lor_lt_pow2.
  - rewrite N.shiftl_mul_pow2, N.pow_add_r. apply N.mul_lt_mono_pos_r; [lia | exact Hcp].
  - eapply N.lt_le_trans; [apply (land_lt_ones b 6) |].
    apply N.pow_le_mono_r; lia.
Qed.

Lemma decode_lead_ok (b : N) :
  match decode_lead b with
  | inl out => Forall (fun c => c < 0x10000) out
  | inr p => pending_ok (Some p)
  end.
Proof.
  unfold decode_lead.
  destruct (N.leb_spec b 0x7F) as [Hb | _].
  { apply Forall_cons. split; [lia | apply Forall_nil_2]. }
  destruct ((0xC2 <=? b) && (b <=? 0xDF)).
  { cbn. split; [lia |]. apply (N.lt_le_trans _ _ _ (land_lt_ones b 5)). apply N.leb_le. reflexivity. }
  destruct ((0xE0 <=? b) && (b <=? 0xEF)).
  { cbn. split; [lia |]. apply (N.lt_le_trans _ _ _ (land_lt_ones b 4)). apply N.leb_le. reflexivity. }
  destruct ((0xF0 <=? b) && (b <=? 0xF4)).
  { cbn. split; [lia |]. apply (N.lt_le_trans _ _ _ (land_lt_ones b 3)). apply N.leb_le. reflexivity. }
  apply Forall_cons. split; [apply N.ltb_lt; reflexivity | apply Forall_nil_2].
Qed.

Lemma utf16_of_code_point_units (cp : N) :
  cp < 2 ^ 21 -> Forall (fun c => c < 0x10000) (utf16_of_code_point cp).
Proof.
  intros Hcp. change (2 ^ 21) with 2097152 in Hcp. unfold utf16_of_code_point.
  destruct (N.ltb_spec cp 0x10000) as [Hlt | Hge].
  - apply Forall_cons. split; [exact Hlt | apply Forall_nil_2].
  - apply Forall_cons. split; [| apply Forall_cons; split; [| apply Forall_nil_2]].
    + rewrite N.shiftr_div_pow2. change (2 ^ 10) with 1024.
      assert ((cp - 65536) / 1024 < 2048) by (apply N.Div0.div_lt_upper_bound; lia).
      lia.
    + pose proof (land_lt_ones (cp - 0x10000) 10) as Hl.
      change (N.ones 10) with 0x3FF in Hl. change (2 ^ 10) with 1024 in Hl. lia.
Qed.

Lemma utf8_decode_units (bs : list byte) :
  forall st, pending_ok st -> Forall (fun c => c < 0x10000) (utf8_decode st bs).
Proof.
  induction bs as [| b0 rest IH]; intros st Hst.
  - destruct st; [| apply Forall_nil_2].
    apply Forall_cons. split; [apply N.ltb_lt; reflexivity | apply Forall_nil_2].
  - cbn [utf8_decode].
    assert (Hlead : Forall (fun c => c < 0x10000)
                      match decode_lead (Byte.to_N b0) with
                      | inl out => out ++ utf8_decode None rest
                      | inr p' => utf8_decode (Some p') rest
                      end).
    { pose proof (decode_lead_ok (Byte.to_N b0)) as Hl.
      destruct (decode_lead (Byte.to_N b0)) as [out | p'].
      - apply Forall_app. split; [exact Hl | apply IH; exact I].
      - apply IH. exact Hl. }
    destruct st as [p |]; [| exact Hlead].
    destruct ((lower_boundary p <=? Byte.to_N b0) && (Byte.to_N b0 <=? upper_boundary p)).
    + destruct Hst as [Hn Hcp].
      destruct (bytes_needed p) as [| [| n]].
      * lia.
      * apply Forall_app. split; [| apply IH; exact I].
        apply utf16_of_code_point_units. apply (continue_lt _ _ 15). exact Hcp.
      * apply IH. split; [cbn; lia |]. cbn [code_point bytes_needed].
        destruct n as [| [| n]]; [| | lia].
        -- apply (continue_lt _ _ 9). exact Hcp.
        -- apply (continue_lt _ _ 3). exact Hcp.
    + apply Forall_cons. split; [apply N.ltb_lt; reflexivity | exact Hlead].
Qed.

Lemma Buffer_from_cons (c : N) (rest : JsString) :
  Buffer_from (c :: rest) =
  if is_high_surrogate c then
    match rest with
    | lo :: rest' =>
      if is_low_surrogate lo then
        utf8_of_code_point (0x10000 + N.shiftl (c - 0xD800) 10 + (lo - 0xDC00))
        ++ Buffer_from rest'
      else utf8_of_code_point REPLACEMENT ++ Buffer_from rest
    | [] => utf8_of_code_point REPLACEMENT
    end
  else if is_low_surrogate c then
    utf8_of_code_point REPLACEMENT ++ Buffer_from rest
  else utf8_of_code_point c ++ Buffer_from rest.
Proof. reflexivity. Qed.

End Utf8Range.
(** ** Well-formed UTF-8 is what the text transport carries *)

Section Utf8WellFormed.
Import Utf8.
Local Open Scope N_scope.

(** Linear arithmetic with division by a constant. *)
Ltac div_lia := zify; Z.to_euclidean_division_equations; lia.

(** *** Bit operations as arithmetic *)

Lemma lor_shiftl_add (h l k : N) : l < 2 ^ k -> N.lor (N.shiftl h k) l = h * 2 ^ k + l.
Proof.
  intros Hl.
  assert (Hand : N.land (N.shiftl h k) l = 0).
  { apply N.bits_inj. intros n. rewrite N.land_spec, N.bits_0.
    destruct (N.lt_ge_cases n k) as [Hn | Hn].
    - now rewrite N.shiftl_spec_low.
    - destruct (N.eq_dec l 0) as [-> | Hl0]; [now rewrite N.bits_0, andb_false_r |].
      rewrite (N.bits_above_log2 l n); [apply andb_false_r |].
      apply N.lt_le_trans with k; [| exact Hn].
      apply N.log2_lt_pow2; [lia | exact Hl]. }
  rewrite <- N.lxor_lor, <- N.add_nocarry_lxor by exact Hand.
  now rewrite N.shiftl_mul_pow2.
Qed.

Lemma lor_80 (h : N) : h < 64 -> N.lor 0x80 h = 0x80 + h.
Proof. exact (lor_shiftl_add 2 h 6). Qed.

Lemma lor_C0 (h : N) : h < 32 -> N.lor 0xC0 h = 0xC0 + h.
Proof. exact (lor_shiftl_add 6 h 5). Qed.

Lemma lor_E0 (h : N) : h < 16 -> N.lor 0xE0 h = 0xE0 + h.
Proof. exact (lor_shiftl_add 14 h 4). Qed.

Lemma lor_F0 (h : N) : h < 8 -> N.lor 0xF0 h = 0xF0 + h.
Proof. exact (lor_shiftl_add 30 h 3). Qed.

Lemma land_3F (n : N) : N.land n 0x3F = n mod 64.
Proof. exact (N.land_ones n 6). Qed.

Lemma land_3FF (n : N) : N.land n 0x3FF = n mod 1024.
Proof. exact (N.land_ones n 10). Qed.

Lemma to_N_byte_of_N (n : N) : n < 256 -> Byte.to_N (byte_of_N n) = n.
Proof.
  intros Hn. unfold byte_of_N. destruct (Byte.of_N n) as [b |] eqn:Hb.
  - now apply Byte.to_of_N.
  - apply Byte.of_N_None_iff in Hb. lia.
Qed.

Lemma continued_add (cp b : N) : continued cp b = cp * 64 + b mod 64.
Proof.
  unfold continued. rewrite land_3F.
  apply (lor_shiftl_add cp (b mod 64) 6). apply N.mod_lt. discriminate.
Qed.

Lemma continued_shiftr (cp b : N) : N.shiftr (continued cp b) 6 = cp.
Proof.
  rewrite continued_add, N.shiftr_div_pow2. change (2 ^ 6) with 64.
  symmetry. apply (N.div_unique _ 64 cp (b mod 64)); [apply N.mod_lt; discriminate | lia].
Qed.

Lemma continued_land (cp b : N) : N.land (continued cp b) 0x3F = N.land b 0x3F.
Proof.
  rewrite !land_3F, continued_add.
  symmetry. apply (N.mod_unique _ 64 cp (b mod 64)); [apply N.mod_lt; discriminate | lia].
Qed.

Lemma shiftr_12 (cp : N) : N.shiftr cp 12 = N.shiftr (N.shiftr cp 6) 6.
Proof. now rewrite N.shiftr_shiftr. Qed.

Lemma shiftr_18 (cp : N) : N.shiftr cp 18 = N.shiftr (N.shiftr (N.shiftr cp 6) 6) 6.
Proof. now rewrite !N.shiftr_shiftr. Qed.

(** *** Byte by byte *)

Lemma continuation_byte (b : byte) :
  is_continuation (Byte.to_N b) = true ->
  byte_of_N (N.lor 0x80 (N.land (Byte.to_N b) 0x3F)) = b /\
  Byte.to_N b mod 64 = Byte.to_N b - 0x80.
Proof. destruct b; first [discriminate | split; reflexivity]. Qed.

Lemma lead_of_two (b : byte) :
  (0xC2 <=? Byte.to_N b) && (Byte.to_N b <=? 0xDF) = true ->
  byte_of_N (N.lor 0xC0 (N.land (Byte.to_N b) 0x1F)) = b /\
  N.land (Byte.to_N b) 0x1F = Byte.to_N b - 0xC0.
Proof. destruct b; first [discriminate | split; reflexivity]. Qed.

Lemma lead_of_three (b : byte) :
  (0xE0 <=? Byte.to_N b) && (Byte.to_N b <=? 0xEF) = true ->
  byte_of_N (N.lor 0xE0 (N.land (Byte.to_N b) 0xF)) = b /\
  N.land (Byte.to_N b) 0xF = Byte.to_N b - 0xE0.
Proof. destruct b; first [discriminate | split; reflexivity]. Qed.

Lemma lead_of_four (b : byte) :
  (0xF0 <=? Byte.to_N b) && (Byte.to_N b <=? 0xF4) = true ->
  byte_of_N (N.lor 0xF0 (N.land (Byte.to_N b) 0x7)) = b /\
  N.land (Byte.to_N b) 0x7 = Byte.to_N b - 0xF0.
Proof. destruct b; first [discriminate | split; reflexivity]. Qed.

Lemma range_of (lo hi n : N) : (lo <=? n) && (n <=? hi) = true -> lo <= n <= hi.
Proof. intros Hr. apply andb_true_iff in Hr as [H1 H2]. apply N.leb_le in H1, H2. lia. Qed.

Lemma in_range (lo hi n : N) : lo <= n <= hi -> (lo <=? n) && (n <=? hi) = true.
Proof. intros [H1 H2]. apply andb_true_intro. split; apply N.leb_le; assumption. Qed.

Lemma out_of_range (lo hi n : N) : n < lo \/ hi < n -> (lo <=? n) && (n <=? hi) = false.
Proof.
  intros Hn. destruct (N.leb_spec lo n), (N.leb_spec n hi); try reflexivity. lia.
Qed.

Lemma second_ok_spec (n1 n2 : N) :
  second_ok n1 n2 = true <->
  0x80 <= n2 <= 0xBF /\ (n1 = 0xE0 -> 0xA0 <= n2) /\ (n1 = 0xF0 -> 0x90 <= n2) /\
  (n1 = 0xED -> n2 <= 0x9F) /\ (n1 = 0xF4 -> n2 <= 0x8F).
Proof.
  unfold second_ok. rewrite andb_true_iff, !N.leb_le.
  destruct (N.eqb_spec n1 0xE0), (N.eqb_spec n1 0xF0), (N.eqb_spec n1 0xED),
    (N.eqb_spec n1 0xF4); lia.
Qed.

(** The encoder undoes [utf16_of_code_point] on a scalar value. *)
Lemma encode_scalar (cp : N) (x : JsString) :
  cp < 0x110000 -> is_high_surrogate cp = false -> is_low_surrogate cp = false ->
  Buffer_from (utf16_of_code_point cp ++ x) = utf8_of_code_point cp ++ Buffer_from x.
Proof.
  intros Hcp Hhigh Hlow. unfold utf16_of_code_point.
  destruct (N.ltb_spec cp 0x10000) as [Hlt | Hge]; cbn [app]; rewrite Buffer_from_cons.
  - now rewrite Hhigh, Hlow.
  - rewrite N.shiftr_div_pow2, land_3FF, N.shiftl_mul_pow2.
    change (2 ^ 10) with 1024.
    unfold is_high_surrogate, is_low_surrogate.
    rewrite in_range by div_lia. rewrite in_range by div_lia.
    f_equal. f_equal. div_lia.
Qed.

Lemma scalar (cp : N) :
  cp < 0xD800 \/ 0xE000 <= cp -> is_high_surrogate cp = false /\ is_low_surrogate cp = false.
Proof. intros Hcp. split; apply out_of_range; lia. Qed.

Lemma encode_two (b1 b2 : byte) :
  (0xC2 <=? Byte.to_N b1) && (Byte.to_N b1 <=? 0xDF) = true ->
  is_continuation (Byte.to_N b2) = true ->
  let cp := continued (N.land (Byte.to_N b1) 0x1F) (Byte.to_N b2) in
  0x80 <= cp < 0x800 /\ utf8_of_code_point cp = [b1; b2].
Proof.
  intros H1 H2 cp.
  destruct (lead_of_two b1 H1) as [Hb1 Hv1]. destruct (continuation_byte b2 H2) as [Hb2 Hv2].
  apply range_of in H1. apply range_of in H2.
  assert (Hval : cp = (Byte.to_N b1 - 0xC0) * 64 + (Byte.to_N b2 - 0x80))
    by (unfold cp; now rewrite continued_add, Hv1, Hv2).
  assert (Hcp : 0x80 <= cp < 0x800) by lia.
  split; [exact Hcp |]. unfold utf8_of_code_point.
  destruct (N.ltb_spec cp 0x80); [lia |]. destruct (N.ltb_spec cp 0x800); [| lia].
  unfold cp. now rewrite continued_shiftr, continued_land, Hb1, Hb2.
Qed.

Lemma encode_three (b1 b2 b3 : byte) :
  (0xE0 <=? Byte.to_N b1) && (Byte.to_N b1 <=? 0xEF) = true ->
  second_ok (Byte.to_N b1) (Byte.to_N b2) = true ->
  is_continuation (Byte.to_N b3) = true ->
  let cp := continued (continued (N.land (Byte.to_N b1) 0xF) (Byte.to_N b2)) (Byte.to_N b3) in
  (0x800 <= cp < 0xD800 \/ 0xE000 <= cp < 0x10000) /\ utf8_of_code_point cp = [b1; b2; b3].
Proof.
  intros H1 H2 H3 cp. apply second_ok_spec in H2 as (H2 & Ha & _ & Hb & _).
  destruct (lead_of_three b1 H1) as [Hb1 Hv1].
  destruct (continuation_byte b2 (in_range _ _ _ H2)) as [Hb2 Hv2].
  destruct (continuation_byte b3 H3) as [Hb3 Hv3].
  apply range_of in H1. apply range_of in H3.
  assert (Hval : cp = ((Byte.to_N b1 - 0xE0) * 64 + (Byte.to_N b2 - 0x80)) * 64 +
                      (Byte.to_N b3 - 0x80))
    by (unfold cp; now rewrite !continued_add, Hv1, Hv2, Hv3).
  assert (Hcp : 0x800 <= cp < 0xD800 \/ 0xE000 <= cp < 0x10000) by lia.
  split; [exact Hcp |]. unfold utf8_of_code_point.
  destruct (N.ltb_spec cp 0x80); [lia |]. destruct (N.ltb_spec cp 0x800); [lia |].
  destruct (N.ltb_spec cp 0x10000); [| lia].
  rewrite shiftr_12. unfold cp.
  now rewrite !continued_shiftr, !continued_land, Hb1, Hb2, Hb3.
Qed.

Lemma encode_four (b1 b2 b3 b4 : byte) :
  (0xF0 <=? Byte.to_N b1) && (Byte.to_N b1 <=? 0xF4) = true ->
  second_ok (Byte.to_N b1) (Byte.to_N b2) = true ->
  is_continuation (Byte.to_N b3) = true ->
  is_continuation (Byte.to_N b4) = true ->
  let cp := continued (continued (continued (N.land (Byte.to_N b1) 0x7) (Byte.to_N b2))
                                 (Byte.to_N b3)) (Byte.to_N b4) in
  0x10000 <= cp < 0x110000 /\ utf8_of_code_point cp = [b1; b2; b3; b4].
Proof.
  intros H1 H2 H3 H4 cp. apply second_ok_spec in H2 as (H2 & _ & Ha & _ & Hb).
  destruct (lead_of_four b1 H1) as [Hb1 Hv1].
  destruct (continuation_byte b2 (in_range _ _ _ H2)) as [Hb2 Hv2].
  destruct (continuation_byte b3 H3) as [Hb3 Hv3].
  destruct (continuation_byte b4 H4) as [Hb4 Hv4].
  apply range_of in H1. apply range_of in H3. apply range_of in H4.
  assert (Hval : cp = (((Byte.to_N b1 - 0xF0) * 64 + (Byte.to_N b2 - 0x80)) * 64 +
                       (Byte.to_N b3 - 0x80)) * 64 + (Byte.to_N b4 - 0x80))
    by (unfold cp; now rewrite !continued_add, Hv1, Hv2, Hv3, Hv4).
  assert (Hcp : 0x10000 <= cp < 0x110000) by lia.
  split; [exact Hcp |]. unfold utf8_of_code_point.
  destruct (N.ltb_spec cp 0x80); [lia |]. destruct (N.ltb_spec cp 0x800); [lia |].
  destruct (N.ltb_spec cp 0x10000); [lia |].
  rewrite shiftr_18, shiftr_12. unfold cp.
  now rewrite !continued_shiftr, !continued_land, Hb1, Hb2, Hb3, Hb4.
Qed.


(** *** The decoder on a well-formed sequence *)

Lemma decode_two (b1 b2 : byte) (rest : list byte) :
  (Byte.to_N b1 <=? 0x7F) = false ->
  (0xC2 <=? Byte.to_N b1) && (Byte.to_N b1 <=? 0xDF) = true ->
  is_continuation (Byte.to_N b2) = true ->
  utf8_decode None (b1 :: b2 :: rest) =
  utf16_of_code_point (continued (N.land (Byte.to_N b1) 0x1F) (Byte.to_N b2)) ++
  utf8_decode None rest.
Proof.
  intros Ha Hb Hc. cbn [utf8_decode]. unfold decode_lead. rewrite Ha, Hb.
  cbn [lower_boundary upper_boundary bytes_needed code_point].
  unfold is_continuation in Hc. rewrite Hc. reflexivity.
Qed.

Lemma second_ok_three (n1 n2 : N) :
  (0xE0 <=? n1) && (n1 <=? 0xEF) = true ->
  ((if n1 =? 0xE0 then 0xA0 else 0x80) <=? n2) &&
  (n2 <=? (if n1 =? 0xED then 0x9F else 0xBF)) = second_ok n1 n2.
Proof.
  intros Hr. apply range_of in Hr. unfold second_ok.
  destruct (N.eqb_spec n1 0xF0) as [? | _]; [lia |].
  destruct (N.eqb_spec n1 0xF4) as [? | _]; [lia |].
  reflexivity.
Qed.

Lemma second_ok_four (n1 n2 : N) :
  (0xF0 <=? n1) && (n1 <=? 0xF4) = true ->
  ((if n1 =? 0xF0 then 0x90 else 0x80) <=? n2) &&
  (n2 <=? (if n1 =? 0xF4 then 0x8F else 0xBF)) = second_ok n1 n2.
Proof.
  intros Hr. apply range_of in Hr. unfold second_ok.
  destruct (N.eqb_spec n1 0xE0) as [? | _]; [lia |].
  destruct (N.eqb_spec n1 0xED) as [? | _]; [lia |].
  reflexivity.
Qed.

Lemma decode_three (b1 b2 b3 : byte) (rest : list byte) :
  (Byte.to_N b1 <=? 0x7F) = false ->
  (0xC2 <=? Byte.to_N b1) && (Byte.to_N b1 <=? 0xDF) = false ->
  (0xE0 <=? Byte.to_N b1) && (Byte.to_N b1 <=? 0xEF) = true ->
  second_ok (Byte.to_N b1) (Byte.to_N b2) = true ->
  is_continuation (Byte.to_N b3) = true ->
  utf8_decode None (b1 :: b2 :: b3 :: rest) =
  utf16_of_code_point
    (continued (continued (N.land (Byte.to_N b1) 0xF) (Byte.to_N b2)) (Byte.to_N b3)) ++
  utf8_decode None rest.
Proof.
  intros Ha Hb Hc Hd He. cbn [utf8_decode]. unfold decode_lead. rewrite Ha, Hb, Hc.
  cbn [lower_boundary upper_boundary bytes_needed code_point].
  rewrite (second_ok_three _ _ Hc), Hd.
  unfold is_continuation in He. rewrite He. reflexivity.
Qed.

Lemma decode_four (b1 b2 b3 b4 : byte) (rest : list byte) :
  (Byte.to_N b1 <=? 0x7F) = false ->
  (0xC2 <=? Byte.to_N b1) && (Byte.to_N b1 <=? 0xDF) = false ->
  (0xE0 <=? Byte.to_N b1) && (Byte.to_N b1 <=? 0xEF) = false ->
  (0xF0 <=? Byte.to_N b1) && (Byte.to_N b1 <=? 0xF4) = true ->
  second_ok (Byte.to_N b1) (Byte.to_N b2) = true ->
  is_continuation (Byte.to_N b3) = true ->
  is_continuation (Byte.to_N b4) = true ->
  utf8_decode None (b1 :: b2 :: b3 :: b4 :: rest) =
  utf16_of_code_point
    (continued (continued (continued (N.land (Byte.to_N b1) 0x7) (Byte.to_N b2))
                          (Byte.to_N b3)) (Byte.to_N b4)) ++
  utf8_decode None rest.
Proof.
  intros Ha Hb Hc Hd He Hf Hg. cbn [utf8_decode]. unfold decode_lead.
  rewrite Ha, Hb, Hc, Hd.
  cbn [lower_boundary upper_boundary bytes_needed code_point].
  rewrite (second_ok_four _ _ Hd), He.
  unfold is_continuation in Hf, Hg. rewrite Hf, Hg. reflexivity.
Qed.

Ltac scalar_of Hbytes :=
  match type of Hbytes with
  | utf8_of_code_point ?cp = _ =>
    let Hhigh := fresh "Hhigh" in
    let Hlow := fresh "Hlow" in
    destruct (scalar cp) as [Hhigh Hlow]; [lia |]
  end.

Lemma transport_of_well_formed (n : nat) :
  forall B, (length B <= n)%nat -> well_formed_utf8 B = true -> loadFits (blob B) = B.
Proof.
  unfold loadFits, blob, Buffer_toString.
  induction n as [| n IH]; intros B Hlen Hwf.
  { destruct B; [reflexivity | cbn in Hlen; lia]. }
  destruct B as [| b1 r1]; [reflexivity |].
  cbn [well_formed_utf8] in Hwf. cbn [length] in Hlen.
  destruct (Byte.to_N b1 <=? 0x7F) eqn:Ha.
  { apply N.leb_le in Ha. cbn [utf8_decode].
    rewrite decode_lead_ascii by lia. cbn [app].
    rewrite Buffer_from_ascii by lia.
    rewrite byte_of_to_N, IH; [reflexivity | lia | exact Hwf]. }
  destruct ((0xC2 <=? Byte.to_N b1) && (Byte.to_N b1 <=? 0xDF)) eqn:Hb.
  { destruct r1 as [| b2 r2]; [discriminate |].
    apply andb_true_iff in Hwf as [H2 Hwf]. cbn [length] in Hlen.
    rewrite (decode_two _ _ _ Ha Hb H2).
    destruct (encode_two b1 b2 Hb H2) as [Hcp Hbytes].
    scalar_of Hbytes.
    rewrite encode_scalar, Hbytes by (lia || assumption).
    cbn [app]. rewrite IH; [reflexivity | lia | exact Hwf]. }
  destruct ((0xE0 <=? Byte.to_N b1) && (Byte.to_N b1 <=? 0xEF)) eqn:Hc.
  { destruct r1 as [| b2 [| b3 r3]]; try discriminate.
    apply andb_true_iff in Hwf as [H23 Hwf]. apply andb_true_iff in H23 as [H2 H3].
    cbn [length] in Hlen.
    rewrite (decode_three _ _ _ _ Ha Hb Hc H2 H3).
    destruct (encode_three b1 b2 b3 Hc H2 H3) as [Hcp Hbytes].
    scalar_of Hbytes.
    rewrite encode_scalar, Hbytes by (lia || assumption).
    cbn [app]. rewrite IH; [reflexivity | lia | exact Hwf]. }
  destruct ((0xF0 <=? Byte.to_N b1) && (Byte.to_N b1 <=? 0xF4)) eqn:Hd;
    [| discriminate].
  destruct r1 as [| b2 [| b3 [| b4 r4]]]; try discriminate.
  apply andb_true_iff in Hwf as [H234 Hwf]. apply andb_true_iff in H234 as [H23 H4].
  apply andb_true_iff in H23 as [H2 H3]. cbn [length] in Hlen.
  rewrite (decode_four _ _ _ _ _ Ha Hb Hc Hd H2 H3 H4).
  destruct (encode_four b1 b2 b3 b4 Hd H2 H3 H4) as [Hcp Hbytes].
  scalar_of Hbytes.
  rewrite encode_scalar, Hbytes by (lia || assumption).
  cbn [app]. rewrite IH; [reflexivity | lia | exact Hwf].
Qed.

(** *** What the encoder writes is well-formed *)

Lemma scalar_one_sequence (cp : N) :
  cp < 0x110000 -> is_high_surrogate cp = false -> is_low_surrogate cp = false ->
  one_sequence (map Byte.to_N (utf8_of_code_point cp)) = true.
Proof.
  intros Hcp Hhigh Hlow.
  assert (Hscalar : cp < 0xD800 \/ 0xE000 <= cp).
  { unfold is_high_surrogate, is_low_surrogate in *.
    destruct (N.leb_spec 0xD800 cp), (N.leb_spec cp 0xDBFF), (N.leb_spec 0xDC00 cp),
      (N.leb_spec cp 0xDFFF); try discriminate; lia. }
  clear Hhigh Hlow. unfold utf8_of_code_point.
  destruct (N.ltb_spec cp 0x80) as [H1 | H1]; [| destruct (N.ltb_spec cp 0x800) as [H2 | H2];
    [| destruct (N.ltb_spec cp 0x10000) as [H3 | H3]]];
    cbn [map one_sequence];
    rewrite ?shiftr_18, ?shiftr_12, ?N.shiftr_div_pow2, ?land_3F;
    change (2 ^ 6) with 64.
  - rewrite to_N_byte_of_N by lia. apply N.leb_le. lia.
  - rewrite lor_C0, lor_80 by div_lia. rewrite !to_N_byte_of_N by div_lia.
    unfold is_continuation. rewrite !in_range by div_lia. reflexivity.
  - rewrite lor_E0, !lor_80 by div_lia. rewrite !to_N_byte_of_N by div_lia.
    unfold is_continuation. rewrite !in_range by div_lia.
    rewrite (proj2 (second_ok_spec _ _)); [reflexivity |]. div_lia.
  - rewrite lor_F0, !lor_80 by div_lia. rewrite !to_N_byte_of_N by div_lia.
    unfold is_continuation. rewrite !in_range by div_lia.
    rewrite (proj2 (second_ok_spec _ _)); [reflexivity |]. div_lia.
Qed.


Lemma well_formed_after_sequence (w rest : list byte) :
  one_sequence (map Byte.to_N w) = true ->
  well_formed_utf8 (w ++ rest) = well_formed_utf8 rest.
Proof.
  destruct w as [| b1 [| b2 [| b3 [| b4 [| b5 w]]]]]; cbn [map one_sequence];
    try discriminate; intros Hone; cbn [app well_formed_utf8].
  - now rewrite Hone.
  - apply andb_true_iff in Hone as [H1 H2]. pose proof (range_of _ _ _ H1) as Hr.
    destruct (N.leb_spec (Byte.to_N b1) 0x7F) as [? | _]; [lia |].
    now rewrite H1, H2.
  - apply andb_true_iff in Hone as [H12 H3]. apply andb_true_iff in H12 as [H1 H2].
    pose proof (range_of _ _ _ H1) as Hr.
    destruct (N.leb_spec (Byte.to_N b1) 0x7F) as [? | _]; [lia |].
    rewrite (out_of_range 0xC2 0xDF) by lia.
    now rewrite H1, H2, H3.
  - apply andb_true_iff in Hone as [H123 H4]. apply andb_true_iff in H123 as [H12 H3].
    apply andb_true_iff in H12 as [H1 H2]. pose proof (range_of _ _ _ H1) as Hr.
    destruct (N.leb_spec (Byte.to_N b1) 0x7F) as [? | _]; [lia |].
    rewrite (out_of_range 0xC2 0xDF), (out_of_range 0xE0 0xEF) by lia.
    now rewrite H1, H2, H3, H4.
Qed.

Lemma well_formed_after_scalar (cp : N) (rest : list byte) :
  cp < 0x110000 -> is_high_surrogate cp = false -> is_low_surrogate cp = false ->
  well_formed_utf8 (utf8_of_code_point cp ++ rest) = well_formed_utf8 rest.
Proof.
  intros Hcp Hhigh Hlow. apply well_formed_after_sequence.
  now apply scalar_one_sequence.
Qed.

Lemma Buffer_from_well_formed (x : JsString) :
  Forall (fun c => c < 0x10000) x ->
  well_formed_utf8 (Buffer_from x) = true /\
  forall c, c < 0x10000 -> well_formed_utf8 (Buffer_from (c :: x)) = true.
Proof.
  assert (Hrepl : forall rest,
             well_formed_utf8 (utf8_of_code_point REPLACEMENT ++ rest) =
             well_formed_utf8 rest).
  { intros rest. apply well_formed_after_scalar; [apply N.ltb_lt |..]; reflexivity. }
  induction 1 as [| d x Hd Hx [IH1 IH2]].
  - split; [reflexivity |]. intros c Hc. rewrite Buffer_from_cons.
    change (Buffer_from []) with (@nil byte).
    destruct (is_high_surrogate c) eqn:Hhigh.
    + rewrite <- (app_nil_r (utf8_of_code_point REPLACEMENT)). now rewrite Hrepl.
    + destruct (is_low_surrogate c) eqn:Hlow; [now rewrite Hrepl |].
      rewrite well_formed_after_scalar; [reflexivity | lia | assumption..].
  - split; [apply IH2; exact Hd |]. intros c Hc. rewrite (Buffer_from_cons c).
    destruct (is_high_surrogate c) eqn:Hhigh.
    + destruct (is_low_surrogate d) eqn:Hlow; [| rewrite Hrepl; apply IH2; exact Hd].
      pose proof (range_of _ _ _ Hhigh) as Hh. pose proof (range_of _ _ _ Hlow) as Hl.
      assert (Hs : N.shiftl (c - 0xD800) 10 = (c - 0xD800) * 1024)
        by (now rewrite N.shiftl_mul_pow2).
      rewrite Hs.
      destruct (scalar (0x10000 + (c - 0xD800) * 1024 + (d - 0xDC00))) as [Hhigh' Hlow'];
        [lia |].
      rewrite well_formed_after_scalar; [exact IH1 | lia | assumption..].
    + destruct (is_low_surrogate c) eqn:Hlow;
        [rewrite Hrepl; apply IH2; exact Hd |].
      rewrite well_formed_after_scalar; [apply IH2; exact Hd | lia | assumption..].
Qed.

(** *** Bytes of no UTF-8 text *)

Lemma in_utf8 (b : byte) :
  Byte.to_N b < 0xC0 \/ 0xC2 <= Byte.to_N b <= 0xF4 -> never_in_utf8 b = false.
Proof.
  intros Hb. unfold never_in_utf8. cbv zeta.
  destruct (N.eqb_spec (Byte.to_N b) 0xC0), (N.eqb_spec (Byte.to_N b) 0xC1),
    (N.leb_spec 0xF5 (Byte.to_N b)); try reflexivity; lia.
Qed.

Lemma well_formed_in_utf8 (n : nat) :
  forall bs, (length bs <= n)%nat -> well_formed_utf8 bs = true ->
             Forall (fun b => never_in_utf8 b = false) bs.
Proof.
  induction n as [| n IH]; intros bs Hlen Hwf.
  { destruct bs; [apply Forall_nil_2 | cbn in Hlen; lia]. }
  destruct bs as [| b1 r1]; [apply Forall_nil_2 |].
  cbn [well_formed_utf8] in Hwf. cbn [length] in Hlen.
  destruct (N.leb_spec (Byte.to_N b1) 0x7F) as [Ha | Ha].
  { apply Forall_cons. split; [apply in_utf8; lia | apply IH; [lia | exact Hwf]]. }
  destruct ((0xC2 <=? Byte.to_N b1) && (Byte.to_N b1 <=? 0xDF)) eqn:Hb.
  { destruct r1 as [| b2 r2]; [discriminate |].
    apply andb_true_iff in Hwf as [H2 Hwf]. cbn [length] in Hlen.
    apply range_of in Hb, H2.
    repeat (apply Forall_cons; split; [apply in_utf8; lia |]).
    apply IH; [lia | exact Hwf]. }
  destruct ((0xE0 <=? Byte.to_N b1) && (Byte.to_N b1 <=? 0xEF)) eqn:Hc.
  { destruct r1 as [| b2 [| b3 r3]]; try discriminate.
    apply andb_true_iff in Hwf as [H23 Hwf]. apply andb_true_iff in H23 as [H2 H3].
    cbn [length] in Hlen.
    apply range_of in Hc, H3. apply second_ok_spec in H2 as [H2 _].
    repeat (apply Forall_cons; split; [apply in_utf8; lia |]).
    apply IH; [lia | exact Hwf]. }
  destruct ((0xF0 <=? Byte.to_N b1) && (Byte.to_N b1 <=? 0xF4)) eqn:Hd;
    [| discriminate].
  destruct r1 as [| b2 [| b3 [| b4 r4]]]; try discriminate.
  apply andb_true_iff in Hwf as [H234 Hwf]. apply andb_true_iff in H234 as [H23 H4].
  apply andb_true_iff in H23 as [H2 H3]. cbn [length] in Hlen.
  apply range_of in Hd, H3, H4. apply second_ok_spec in H2 as [H2 _].
  repeat (apply Forall_cons; split; [apply in_utf8; lia |]).
  apply IH; [lia | exact Hwf].
Qed.

(** *** The transport *)

Lemma loadFits_well_formed (B : list byte) : well_formed_utf8 (loadFits (blob B)) = true.
Proof.
  unfold loadFits, blob, Buffer_toString.
  apply Buffer_from_well_formed. apply utf8_decode_units. exact I.
Qed.

(** The text transport carries exactly the well-formed UTF-8: the bytes
    [loadFits] gives the panel are the bytes of the document if and only
    if the document is well-formed UTF-8. *)
Theorem transport_is_lossless_iff_well_formed (B : list byte) :
  loadFits (blob B) = B <-> well_formed_utf8 B = true.
Proof.
  split.
  - intros Heq. rewrite <- Heq. apply loadFits_well_formed.
  - apply (transport_of_well_formed (length B)). lia.
Qed.

(** The bytes the panel gets from [loadFits] never include C0, C1 or F5
    to FF. So content with one of these bytes anywhere does not come
    through as it was. *)
Theorem bytes_outside_utf8_never_come_back (B : list byte) :
  Forall (fun b => never_in_utf8 b = false) (loadFits (blob B)) /\
  ((exists b, b ∈ B /\ never_in_utf8 b = true) -> loadFits (blob B) <> B).
Proof.
  assert (Hall : Forall (fun b => never_in_utf8 b = false) (loadFits (blob B))).
  { apply (well_formed_in_utf8 (length (loadFits (blob B)))); [lia |].
    apply loadFits_well_formed. }
  split; [exact Hall |].
  intros (b & Hb & Hnever) Heq. rewrite Heq in Hall.
  rewrite Forall_forall in Hall. apply Hall in Hb. congruence.
Qed.

End Utf8WellFormed.

(** ** More runs of the model *)

Section MoreRuns.
Import Plain.

Lemma transport_is_lossless_iff_well_formed_witness :
  Utf8.loadFits (Utf8.blob ["S"%byte; xc3; xa9]) = ["S"%byte; xc3; xa9].
Proof.
  apply (proj2 (transport_is_lossless_iff_well_formed ["S"%byte; xc3; xa9])).
  reflexivity.
Defined.

Lemma bytes_outside_utf8_never_come_back_witness :
  Forall (fun b => never_in_utf8 b = false) (Utf8.loadFits (Utf8.blob ["S"%byte; xff])) /\
  Utf8.loadFits (Utf8.blob ["S"%byte; xff]) <> ["S"%byte; xff].
Proof.
  destruct (bytes_outside_utf8_never_come_back ["S"%byte; xff]) as [Hall Hne].
  split; [exact Hall |].
  apply Hne. exists xff. split; [| reflexivity]. right. left.
Defined.

(** One panel, a save asked for, and the response of the panel. *)
Lemma settled_promise_keeps_its_value_witness :
  let sys := steps (document sky)
                   [EvResolveEditor 0; EvCall (OpSave 7);
                    EvMessage 0 (response_to 1 [83; 73]%Z blue)]
                   (opened sky [] empty_store) in
  promises (sys_store sys) !! 0 = Some (Some [83; 73]%Z) /\
  promises (sys_store (steps (document sky)
                             [EvMessage 0 (response_to 1 [0]%Z red);
                              EvMessage 0 (stroke_message red)] sys)) !! 0 =
  Some (Some [83; 73]%Z).
Proof.
  intros sys.
  assert (Hp : promises (sys_store sys) !! 0 = Some (Some [83; 73]%Z))
    by (vm_compute; reflexivity).
  split; [exact Hp |].
  exact (@settled_promise_keeps_its_value plain_uri sky [] empty_store _ _ 0 [83; 73]%Z Hp).
Defined.

Lemma bridge_ok_empty_store : bridge_ok empty_store.
Proof.
  intros _. split; [apply NoDup_nil_2 |]. split.
  - intros n Hn. inversion Hn.
  - intros n [q Hq]. cbn in Hq. now rewrite lookup_empty in Hq.
Defined.

Lemma request_ids_are_fresh_witness :
  let s := sys_store (steps (document sky) cancelled_save (opened sky [] empty_store)) in
  bridge_ok empty_store /\
  (_requestId s < 2 ^ 53)%N /\
  NoDup (posted_ids s) /\
  _callbacks s !! _requestId s = None.
Proof.
  intros s.
  assert (Hlt : (_requestId s < 2 ^ 53)%N) by (vm_compute; reflexivity).
  split; [exact bridge_ok_empty_store |]. split; [exact Hlt |].
  destruct (@request_ids_are_fresh plain_uri sky [] empty_store cancelled_save
              bridge_ok_empty_store Hlt) as (Hnd & _ & _ & Hfree).
  split; [exact Hnd | exact Hfree].
Defined.

Lemma table_ok_empty_store : table_ok empty_store.
Proof.
  intros n. split.
  - intros Hn. inversion Hn.
  - intros [q Hq]. cbn in Hq. now rewrite lookup_empty in Hq.
Defined.

Lemma callbacks_hold_every_request_witness :
  let s := sys_store (steps (document sky) cancelled_save (opened sky [] empty_store)) in
  table_ok empty_store /\
  (1%N ∈ posted_ids s <-> is_Some (_callbacks s !! 1%N)).
Proof.
  intros s. split; [exact table_ok_empty_store |].
  exact (@callbacks_hold_every_request plain_uri sky [] empty_store cancelled_save
           table_ok_empty_store 1%N).
Defined.

Lemma only_revert_changes_documentData_witness :
  let sys := steps (document sky) cancelled_save
                   (opened sky ["S"%byte] empty_store) in
  let sys' := step (document sky) (EvMessage 0 (stroke_message blue)) sys in
  filter is_revert (history sys') = filter is_revert (history sys) /\
  _documentData (sys_store sys') = _documentData (sys_store sys).
Proof.
  intros sys sys'.
  assert (Hf : filter is_revert (history sys') = filter is_revert (history sys))
    by (vm_compute; reflexivity).
  split; [exact Hf |].
  exact (@only_revert_changes_documentData plain_uri sky ["S"%byte] empty_store cancelled_save
           (EvMessage 0 (stroke_message blue)) Hf).
Defined.

Lemma host_posts_init_and_getFileData_only_witness :
  Forall host_message (posted empty_store) /\
  Forall host_message
         (posted (sys_store (steps (document sky)
                                   [EvResolveEditor 0; EvMessage 0 ready_message;
                                    EvCall (OpSave 7)]
                                   (opened sky [] empty_store)))).
Proof.
  assert (H0 : Forall host_message (posted empty_store)) by apply Forall_nil_2.
  split; [exact H0 |].
  exact (@host_posts_init_and_getFileData_only plain_uri sky [] empty_store
           [EvResolveEditor 0; EvMessage 0 ready_message; EvCall (OpSave 7)] H0).
Defined.

Lemma all_pending_empty_store : all_pending empty_store.
Proof. intros p v Hp. destruct p; discriminate Hp. Defined.

Lemma ready_from_panel_script : from_panel_script ready_message.
Proof. exists []. left. Defined.

(** A panel that gets ready, and a save that waits for it. *)
Lemma save_never_writes_with_this_panel_witness :
  let evs := [EvResolveEditor 0; EvMessage 0 ready_message; EvCall (OpSave 7);
              EvResume 0 ReplySettled; EvCancel 7] in
  let sys := steps (document sky) evs (opened sky [] empty_store) in
  all_pending empty_store /\
  Forall (event_with from_panel_script) evs /\
  length (pool sys) = 1 /\
  Forall waits_for_no_write (pool sys) /\
  Forall returned_only_revert (history sys).
Proof.
  intros evs sys.
  assert (Hevs : Forall (event_with from_panel_script) evs).
  { repeat (apply Forall_cons; split; [first [exact I | exact ready_from_panel_script] |]).
    apply Forall_nil_2. }
  split; [exact all_pending_empty_store |]. split; [exact Hevs |].
  split; [reflexivity |].
  destruct (@save_never_writes_with_this_panel plain_uri sky [] empty_store evs
              all_pending_empty_store Hevs) as (_ & Hpool & Hhist).
  split; [exact Hpool | exact Hhist].
Defined.

Lemma save_fails_when_last_panel_closed_witness :
  let s := exec (resolveCustomEditor (document sky) 3) empty_store in
  let s' := exec (WebviewCollection_onDidDispose 3) s in
  Forall (fun q => q = 3) (WebviewCollection_get sky s) /\
  run (save (document sky) 7) s' =
  {| store := s'; fired := [];
     outcome := Thrown (JsError "Could not find webview to save for") |}.
Proof.
  intros s s'.
  assert (Hall : Forall (fun q => q = 3) (WebviewCollection_get sky s)).
  { apply Forall_cons. split; [reflexivity | apply Forall_nil_2]. }
  split; [exact Hall |].
  exact (@save_fails_when_last_panel_closed plain_uri sky 3 7 s Hall).
Defined.

Lemma stray_message_is_ignored_witness :
  let e := {| type := "getFileData"; requestId := Some 1%N; body := [];
              as_PawDrawEdit := red |} in
  run (onDidReceiveMessage (document sky) 0 e) empty_store =
  {| store := empty_store; fired := []; outcome := Returned tt |}.
Proof.
  intros e.
  apply (@stray_message_is_ignored plain_uri (@document plain_uri sky) 0 e empty_store).
  - discriminate.
  - discriminate.
  - discriminate.
Defined.


Lemma save_turn_by_turn_witness :
  let s := exec (resolveCustomEditor (document sky) 3) empty_store in
  WebviewCollection_get sky s = [3] /\
  exists k,
    outcome (run (save (document sky) 7) s) = Suspended (Settled (length (promises s))) k.
Proof.
  intros s.
  assert (Hget : WebviewCollection_get sky s = [3]) by reflexivity.
  split; [exact Hget |].
  destruct (@save_turn_by_turn plain_uri sky 7 s 3 [] Hget) as (k & Hk & _).
  exists k. exact Hk.
Defined.

Lemma backup_turn_by_turn_witness :
  let s := exec (resolveCustomEditor (document sky) 3) empty_store in
  WebviewCollection_get sky s = [3] /\
  exists k,
    outcome (run (backup (document sky) (file "/sky.bak") 7) s) =
    Suspended (Settled (length (promises s))) k.
Proof.
  intros s.
  assert (Hget : WebviewCollection_get sky s = [3]) by reflexivity.
  split; [exact Hget |].
  destruct (@backup_turn_by_turn plain_uri sky (file "/sky.bak") 7 s 3 [] Hget)
    as (k & Hk & _).
  exists k. exact Hk.
Defined.

End MoreRuns.

(** ** Runs of the model *)

Section Runs.
Import Plain.

(** On 7-bit content nothing is lost. *)
Example loadFits_blob_SIM :
  Utf8.loadFits (Utf8.blob ["S"%byte; "I"%byte; "M"%byte]) =
  ["S"%byte; "I"%byte; "M"%byte].
Proof.
  apply loadFits_blob_ascii.
  repeat (apply Forall_cons; split; [reflexivity |]). apply Forall_nil_2.
Qed.

(** C2, counterexample: after the response the entry of the request is
    still in the table. *)
Lemma C2_entry_is_not_removed :
  let sent := store (run (postMessageWithResponse 0 "getFileData" BodyEmpty)
                         empty_store) in
  let answered := exec (onMessage (document sky) (response_to 1 [83; 73]%Z blue)) sent in
  promises answered !! 0 = Some (Some [83; 73]%Z) /\
  _callbacks answered !! 1%N = Some 0 /\
  _callbacks answered !! 1%N <> None.
Proof. vm_compute. split; [reflexivity | split; [reflexivity | discriminate]]. Qed.

Lemma C2_response_settles_once_entry_stays_witness :
  let sent := store (run (postMessageWithResponse 0 "getFileData" BodyEmpty)
                         empty_store) in
  let s1 := exec (onMessage (document sky) (response_to 1 [83; 73]%Z blue)) sent in
  _callbacks sent !! 1%N = Some 0 /\
  promises sent !! 0 = Some None /\
  promises s1 !! 0 = Some (Some [83; 73]%Z) /\
  _callbacks s1 = _callbacks sent /\
  exec (onMessage (document sky) (response_to 1 [0]%Z red)) s1 = s1.
Proof.
  intros sent s1.
  assert (Hcb : _callbacks sent !! 1%N = Some 0) by (vm_compute; reflexivity).
  assert (Hp : promises sent !! 0 = Some None) by reflexivity.
  split; [exact Hcb |]. split; [exact Hp |].
  exact (proj2 (C2_response_settles_once_entry_stays
                  (document sky) 0 "getFileData" BodyEmpty empty_store)
               sent [83; 73]%Z [0]%Z blue red Hcb Hp).
Defined.

(** C3, counterexample: a save whose write is skipped because of
    cancellation still takes its copy of the edit log, though no save has
    written anything. *)
Lemma C3_cancelled_save_takes_the_snapshot :
  let sys := steps (document sky) cancelled_save (opened sky [] empty_store) in
  history sys = [{| done_op := OpSave 7; done_after := Some (Settled 0);
                    done_returned := true; done_edits := [red] |}] /\
  edits_at_last_written_save (history sys) = [] /\
  savedEdits_value (sys_store sys) = [red] /\
  savedEdits_value (sys_store sys) <> edits_at_last_written_save (history sys).
Proof.
  vm_compute.
  split; [reflexivity | split; [reflexivity | split; [reflexivity | discriminate]]].
Qed.

(** After a [revert] the two fields are one array: a stroke changes the
    contents of [_savedEdits] though no [save] has returned. *)
Lemma stroke_after_revert_changes_savedEdits :
  let sys := steps (document sky) stroke_after_revert (opened sky [] empty_store) in
  _edits (sys_store sys) = _savedEdits (sys_store sys) /\
  filter is_save (history sys) = [] /\
  savedEdits_value (sys_store sys) = [red].
Proof. vm_compute. auto. Qed.

Lemma C3_savedEdits_is_log_at_last_returned_save_witness :
  let sys := steps (document sky) cancelled_save (opened sky [] empty_store) in
  reverted_since_save (history sys) = false /\
  savedEdits_value (sys_store sys) = edits_at_last_save (history sys).
Proof.
  intros sys.
  assert (Hrev : reverted_since_save (history sys) = false) by (vm_compute; reflexivity).
  split; [exact Hrev |].
  exact (proj1 (C3_savedEdits_is_log_at_last_returned_save
                  sky [] empty_store cancelled_save Hrev)).
Defined.

(** On a document just opened, two strokes are logged and the two undo
    actions, last one first, empty the log again. *)
Lemma C4_undo_in_reverse_restores_the_log_witness :
  let s := sys_store (opened sky [] empty_store) in
  let edited := run (makeEdits (document sky) [red; blue]) s in
  edits_value s = [] /\
  edits_value (store edited) = [red; blue] /\
  length (fired edited) = 2 /\
  edits_value (undo_all (fired edited) (store edited)) = edits_value s /\
  _documentData (undo_all (fired edited) (store edited)) = _documentData s.
Proof.
  intros s edited.
  destruct (@C4_undo_in_reverse_restores_the_log plain_uri (@document plain_uri sky)
              [red; blue] s) as (Hfired & Hlog & Hdata & _).
  split; [reflexivity |]. split; [reflexivity |].
  split; [exact Hfired |]. split; [exact Hlog | exact Hdata].
Defined.

Lemma C5_redo_after_undo_appends_the_edit_witness :
  let s := sys_store (opened sky [] empty_store) in
  _edits s < length (arrays s) /\
  exists ev,
    fired (run (makeEdit (document sky) red) s) = [ev] /\
    edits_value (redo ev (undo ev (store (run (makeEdit (document sky) red) s)))) =
    edits_value s ++ [red].
Proof.
  intros s.
  assert (Hs : _edits s < length (arrays s)) by (vm_compute; lia).
  split; [exact Hs |].
  destruct (@C5_redo_after_undo_appends_the_edit plain_uri (@document plain_uri sky) red s s Hs Hs)
    as (ev & Hfired & _ & Hredo & _).
  exists ev. split; [exact Hfired | exact Hredo].
Defined.

(** C8 (fails on the code). [revert] makes the array of [_savedEdits]
    the edit log without copying it. After a save and a first revert, a
    stroke is therefore pushed onto the array of [_savedEdits] as well,
    and a second revert leaves the stroke in the edit log: the log is not
    the one captured at the last save, which was empty. The bytes and the
    event are as they should be. *)
Theorem C8_second_revert_keeps_the_stroke :
  let sys := steps (document sky) revert_twice (opened sky [] empty_store) in
  map (fun c => (done_op c, done_returned c)) (history sys) =
    [(OpSave 7, true); (OpRevert 7, true); (OpRevert 7, true)] /\
  map done_edits (filter is_written_save (history sys)) = [[]] /\
  edits_at_last_save (history sys) = [] /\
  edits_value (sys_store sys) = [red] /\
  edits_value (sys_store sys) <> edits_at_last_save (history sys) /\
  _documentData (sys_store sys) = ["S"%byte; "I"%byte] /\
  last (changed (sys_store sys)) =
    Some {| content := Some ["S"%byte; "I"%byte]; edits := _edits (sys_store sys) |}.
Proof.
  vm_compute. repeat (split; [reflexivity |]).
  split; [discriminate |]. split; reflexivity.
Qed.

(** Two panels on one document. *)
Lemma C10_getFileData_asks_first_panel_witness :
  let s := exec (resolveCustomEditor (document sky) 4)
                (exec (resolveCustomEditor (document sky) 3) empty_store) in
  _webviews s = [] ++ {| resource := Uri_toString sky; webviewPanel := 3 |}
                   :: [{| resource := Uri_toString sky; webviewPanel := 4 |}] /\
  posted (store (run (getFileData (_delegate (document sky))) s)) =
  posted s ++ [{| posted_to := 3; posted_type := "getFileData";
                  posted_requestId := Some (_requestId s);
                  posted_body := BodyEmpty |}].
Proof.
  intros s.
  assert (Hw : _webviews s =
               [] ++ {| resource := Uri_toString sky; webviewPanel := 3 |}
                  :: [{| resource := Uri_toString sky; webviewPanel := 4 |}])
    by reflexivity.
  split; [exact Hw |].
  exact (proj1 (C10_getFileData_asks_first_panel sky s [] _ 3 Hw (Forall_nil_2 _))).
Defined.

Lemma C9_getFileData_throws_iff_no_panel_witness :
  ~ (exists entry, entry ∈ _webviews empty_store /\ resource entry = Uri_toString sky) /\
  outcome (run (getFileData (_delegate (document sky))) empty_store) =
  Thrown (JsError "Could not find webview to save for").
Proof.
  assert (Hno : ~ (exists entry, entry ∈ _webviews empty_store /\
                                 resource entry = Uri_toString sky)).
  { intros (entry & Hin & _). inversion Hin. }
  split; [exact Hno |].
  exact (proj1 (proj2 (C9_getFileData_throws_iff_no_panel sky empty_store)) Hno).
Defined.

End Runs.
